(** * Portfolio tracker backend: price cache, trade aggregation, portfolio view

    A shallow embedding of [backend/index.js]:
    - [fetchCurrentPrice], the price lookup behind the in-memory
      [priceCache] with its 60 second time to live;
    - the aggregation query of [GET /api/portfolio] over the [trades] table;
    - the loop of that route which prices every aggregated row, and the
      [reduce] that totals the market values.

    How the program is read:
    - JavaScript numbers are IEEE 754 binary64 values, modelled by
      [spec_float] at precision 53 with the operations of the standard
      library's [SpecFloat], which compute on integers.  Time stamps are
      integers ([Date.now()] counts milliseconds).
    - Strings are strings of ASCII characters (ticker symbols, decimal
      literals, URLs); a symbol with a letter outside ASCII is outside the
      model.
    - [fetchCurrentPrice] is a function of what it finds around it (the
      environment variable, the clock, the answer of the quote provider) and
      of the cache, to its result, the cache it leaves and the requests it
      made.  Calls run one after another, as the route awaits them.
    - The database engine is taken at the meaning of its query language:
      NUMERIC values are exact rationals, [SUM] is their sum, [GROUP BY] the
      partition by key, and [AVG] the quotient of the sum by the count,
      rounded to the number of decimals the engine gives a quotient. *)

From Stdlib Require Import ZArith QArith Qcanon Qround Lqa Ascii String.
From Stdlib Require Import Floats.SpecFloat.
From stdpp Require Import gmap strings list.

Local Open Scope Z_scope.

(** ** JavaScript numbers *)

Module JsNumber.

Definition number : Type := spec_float.

Definition prec : Z := 53.
Definition emax : Z := 1024.

Definition NaN : number := S754_nan.
Definition zero : number := S754_zero false.

(** [x + y] and [x * y] *)
Definition add (x y : number) : number := SFadd prec emax x y.
Definition mul (x y : number) : number := SFmul prec emax x y.

(** ToBoolean on a number: [+0], [-0] and [NaN] are falsy. *)
Definition toBoolean (x : number) : bool :=
  match x with
  | S754_zero _ | S754_nan => false
  | _ => true
  end.

Definition isNaN (x : number) : bool :=
  match x with S754_nan => true | _ => false end.

Definition isFinite (x : number) : bool :=
  match x with
  | S754_zero _ | S754_finite _ _ _ => true
  | _ => false
  end.

(** The number nearest to the fraction [n / d] (ties to even), signed. *)
Definition ofRatio (neg : bool) (n d : positive) : number :=
  SFdiv prec emax (S754_finite neg n 0) (S754_finite false d 0).

(** The number nearest to [m * 10 ^ k], signed: the value of a decimal
    literal with digits [m] and decimal exponent [k]. *)
Definition ofDecimal (neg : bool) (m : N) (k : Z) : number :=
  match m with
  | N0 => S754_zero neg
  | Npos p =>
      if 0 <=? k then binary_round prec emax neg (p * Z.to_pos (10 ^ k)) 0
      else ofRatio neg p (Z.to_pos (10 ^ (- k)))
  end.

Definition ofZ (z : Z) : number :=
  ofDecimal (z <? 0) (Z.to_N (Z.abs z)) 0.

(** [10 ^ 21 <= m * 2 ^ e] *)
Definition atLeast1e21 (m : positive) (e : Z) : bool :=
  if 0 <=? e then 10 ^ 21 <=? Z.pos m * 2 ^ e
  else 10 ^ 21 * 2 ^ (- e) <=? Z.pos m.

(** The integer [n] for which [n / 10 ^ f - m * 2 ^ e] is as close to zero
    as possible, the larger one when there are two (step 10 of
    [Number.prototype.toFixed]). *)
Definition fixedDigits (f : Z) (m : positive) (e : Z) : Z :=
  if 0 <=? e then Z.pos m * 10 ^ f * 2 ^ e
  else (2 * (Z.pos m * 10 ^ f) + 2 ^ (- e)) / (2 * 2 ^ (- e)).

(** [Number(x.toFixed(4))].

    [toFixed] prints [NaN] and the infinities by name and a finite [x] of
    magnitude at least [10 ^ 21] as [String(x)]; [Number] reads each of
    those back as [x].  Otherwise [toFixed] prints the sign (for [x < 0],
    which [-0] is not) and the digits of [fixedDigits 4] with the point
    before the last four; [Number] reads that literal back as the nearest
    number, the literal [-0.0000] as [-0]. *)
Definition toFixed4 (x : number) : number :=
  match x with
  | S754_nan => S754_nan
  | S754_infinity s => S754_infinity s
  | S754_zero _ => S754_zero false
  | S754_finite s m e =>
      if atLeast1e21 m e then x
      else ofDecimal s (Z.to_N (fixedDigits 4 m e)) (-4)
  end.

End JsNumber.

(** ** JavaScript strings *)

Module JsString.

Definition code (c : ascii) : Z := Z.of_N (N_of_ascii c).

Definition ofCode (z : Z) : ascii := ascii_of_N (Z.to_N z).

Definition isLower (c : ascii) : bool := (97 <=? code c) && (code c <=? 122).
Definition isUpper (c : ascii) : bool := (65 <=? code c) && (code c <=? 90).
Definition isDigit (c : ascii) : bool := (48 <=? code c) && (code c <=? 57).

Definition upperChar (c : ascii) : ascii :=
  if isLower c then ofCode (code c - 32) else c.

(** [s.toUpperCase()], for a string of ASCII characters: the letters [a] to
    [z] are replaced by [A] to [Z], every other character is kept. *)
Fixpoint toUpperCase (s : string) : string :=
  match s with
  | EmptyString => EmptyString
  | String c s' => String (upperChar c) (toUpperCase s')
  end.

(** ToBoolean on a string: only the empty string is falsy. *)
Definition toBoolean (s : string) : bool :=
  match s with EmptyString => false | _ => true end.

(** *** [encodeURIComponent] *)

Definition hexDigit (z : Z) : ascii :=
  if z <? 10 then ofCode (48 + z) else ofCode (55 + z).

Definition isUnreserved (c : ascii) : bool :=
  isUpper c || isLower c || isDigit c
  || bool_decide (c ∈ ["-"; "_"; "."; "!"; "~"; "*"; "'"; "("; ")"]%char).

Fixpoint encodeURIComponent (s : string) : string :=
  match s with
  | EmptyString => EmptyString
  | String c s' =>
      if isUnreserved c then String c (encodeURIComponent s')
      else String "%" (String (hexDigit (code c / 16))
                         (String (hexDigit (code c mod 16))
                            (encodeURIComponent s')))
  end.

(** *** [parseFloat] on a string *)

(** TAB, LF, VT, FF, CR and the space *)
Definition isWhiteSpace (c : ascii) : bool :=
  ((9 <=? code c) && (code c <=? 13)) || (code c =? 32).

Fixpoint trimStart (s : string) : string :=
  match s with
  | String c s' => if isWhiteSpace c then trimStart s' else s
  | EmptyString => s
  end.

(** The longest run of decimal digits at the head of [s]: the digits read
    after those of [acc], how many there are, and what follows them. *)
Fixpoint digits (s : string) (acc : N) (count : nat) : N * nat * string :=
  match s with
  | String c s' =>
      if isDigit c
      then digits s' (10 * acc + Z.to_N (code c - 48))%N (S count)
      else (acc, count, s)
  | EmptyString => (acc, count, s)
  end.

(** The optional sign at the head of [s]: whether it is a minus, and the
    rest. *)
Definition sign (s : string) : bool * string :=
  match s with
  | String "-" s' => (true, s')
  | String "+" s' => (false, s')
  | _ => (false, s)
  end.

(** ExponentPart, when [s] starts with one; [0] otherwise. *)
Definition exponentPart (s : string) : Z :=
  match s with
  | String c s' =>
      if bool_decide (c = "e"%char ∨ c = "E"%char) then
        let '(neg, s'') := sign s' in
        let '(e, count, _) := digits s'' 0%N 0%nat in
        match count with
        | O => 0
        | S _ => if neg then - Z.of_N e else Z.of_N e
        end
      else 0
  | EmptyString => 0
  end.

(** [parseFloat(s)]: white space is skipped, then the longest prefix that
    is a StrDecimalLiteral is read; [NaN] when there is none. *)
Definition parseFloat (s : string) : JsNumber.number :=
  let '(neg, s1) := sign (trimStart s) in
  if String.prefix "Infinity" s1 then S754_infinity neg
  else
    let '(int, nInt, s2) := digits s1 0%N 0%nat in
    let '(mant, nFrac, s3) :=
      match s2 with
      | String "." s2' => digits s2' int 0%nat
      | _ => (int, 0%nat, s2)
      end in
    match nInt, nFrac with
    | O, O => JsNumber.NaN
    | _, _ => JsNumber.ofDecimal neg mant (exponentPart s3 - Z.of_nat nFrac)
    end.

End JsString.

(** ** JSON values, as [res.json()] yields them *)

Local Unset Elimination Schemes.
Inductive json : Type :=
  | JNull
  | JBool (b : bool)
  | JNumber (x : JsNumber.number)
  | JString (s : string)
  | JArray (items : list json)
  | JObject (fields : list (string * json)).
Local Set Elimination Schemes.

(** What evaluating an expression ends in: a value, or a thrown error. *)
Inductive completion (A : Type) : Type :=
  | Normal (a : A)
  | Throw.
Arguments Normal {A} a.
Arguments Throw {A}.

Module Json.

(** ToBoolean *)
Definition toBoolean (v : json) : bool :=
  match v with
  | JNull => false
  | JBool b => b
  | JNumber x => JsNumber.toBoolean x
  | JString s => JsString.toBoolean s
  | JArray _ | JObject _ => true
  end.

(** The member named [k] of a parsed object; of two members with one name
    [JSON.parse] keeps the later. *)
Fixpoint member (k : string) (fields : list (string * json)) : option json :=
  match fields with
  | [] => None
  | (k', v) :: rest =>
      match member k rest with
      | Some v' => Some v'
      | None => if String.eqb k k' then Some v else None
      end
  end.

(** [v[k]] for the two keys the route reads, ['Global Quote'] and
    ['05. price'], which no built-in prototype defines: reading them off
    [null] throws a TypeError, off an object gives its member or
    [undefined] ([None]), off anything else gives [undefined]. *)
Definition get (v : json) (k : string) : completion (option json) :=
  match v with
  | JNull => Throw
  | JObject fields => Normal (member k fields)
  | _ => Normal None
  end.

(** [String(v)] throws a TypeError: a parsed object prints through the
    member [toString] it finds, which is [Object.prototype]'s unless the
    object has a member of that name of its own, and that one, being data,
    cannot be called ([valueOf] then hands back the object, and nothing is
    left to try); an array prints every item but [null], in order, so it
    throws when one of them does. *)
Fixpoint unprintable (v : json) : bool :=
  match v with
  | JObject fields => bool_decide (is_Some (member "toString" fields))
  | JArray items =>
      (fix any (l : list json) : bool :=
         match l with
         | [] => false
         | item :: rest => unprintable item || any rest
         end) items
  | _ => false
  end.

(** [parseFloat(v)], which reads [String(v)], for a [v] that [String]
    prints ([unprintable] tells the others).  A number prints as the
    shortest decimal that reads back as itself, [-0] as [0]; [true],
    [false], [null] and [[object Object]] start no decimal literal; an array
    prints its items joined by commas, [null] items as nothing, so that
    what is read is its first item. *)
Fixpoint parseFloat (v : json) : JsNumber.number :=
  match v with
  | JString s => JsString.parseFloat s
  | JNumber (S754_zero _) => JsNumber.zero
  | JNumber x => x
  | JArray (item :: _) =>
      match item with
      | JNull => JsNumber.NaN
      | _ => parseFloat item
      end
  | _ => JsNumber.NaN
  end.

End Json.

(** ** The price cache and [fetchCurrentPrice] *)

(** [{ price: number|null, ts: epoch_ms }] *)
Record CacheEntry : Type := { price : option JsNumber.number; ts : Z }.

Definition CACHE_TTL_MS : Z := 60000.

(** How [await fetch(url)] followed by [await res.json()] ends: either of
    them rejects, or the body parses to [data]. *)
Inductive FetchOutcome : Type :=
  | Rejects
  | Responds (data : json).

(** What one call of [fetchCurrentPrice] sees around it: the variable
    [process.env.ALPHA_VANTAGE_KEY] ([None] when it is not set), the reading
    of [Date.now()], and what a request to a URL ends in. *)
Record Env : Type := {
  apiKey : option string;
  now : Z;
  fetch : string -> FetchOutcome
}.

(** What one call leaves behind: the value the promise resolves to ([None]
    is [null]), the cache, and the URLs it requested, in order. *)
Record Outcome : Type := {
  returned : option JsNumber.number;
  cacheAfter : gmap string CacheEntry;
  requested : list string
}.

(** [!apiKey] *)
Definition keyMissing (k : option string) : bool :=
  match k with
  | None => true
  | Some s => negb (JsString.toBoolean s)
  end.

Definition quoteUrl (key k : string) : string :=
  "https://www.alphavantage.co/query?function=GLOBAL_QUOTE&symbol="
  +:+ JsString.encodeURIComponent key +:+ "&apikey=" +:+ k.

(** Lines 48 to 50: from the parsed body to [price].  Reading a member
    off [null] throws, and so does [parseFloat] of a price field that
    [String] cannot print. *)
Definition quotePrice (data : json) : completion (option JsNumber.number) :=
  match Json.get data "Global Quote" with
  | Throw => Throw
  | Normal q =>
      let quote :=
        match q with
        | Some v => if Json.toBoolean v then v else JObject []
        | None => JObject []
        end in
      match Json.get quote "05. price" with
      | Throw => Throw
      | Normal p =>
          let priceStr := default JNull p in
          if Json.toBoolean priceStr then
            if Json.unprintable priceStr then Throw
            else Normal (Some (Json.parseFloat priceStr))
          else Normal None
      end
  end.

(** The body of the [try] block up to [price]. *)
Definition tryQuote (env : Env) (url : string) : completion (option JsNumber.number) :=
  match fetch env url with
  | Rejects => Throw
  | Responds data => quotePrice data
  end.

(** [cached && now - cached.ts < CACHE_TTL_MS] *)
Definition isFresh (t : Z) (cached : option CacheEntry) : bool :=
  match cached with
  | Some c => t - ts c <? CACHE_TTL_MS
  | None => false
  end.

(** [priceCache] is a plain object, read with [priceCache[key]]: a key that
    names a member of [Object.prototype] would read that member.  No key the
    function uses does: a key is upper-cased, and each of those names has a
    lower-case letter. *)
Definition objectPrototypeNames : list string :=
  ["constructor"; "hasOwnProperty"; "isPrototypeOf"; "propertyIsEnumerable";
   "toLocaleString"; "toString"; "valueOf"; "__proto__"; "__defineGetter__";
   "__defineSetter__"; "__lookupGetter__"; "__lookupSetter__"].

Fixpoint hasLower (s : string) : bool :=
  match s with
  | EmptyString => false
  | String c s' => JsString.isLower c || hasLower s'
  end.

(** [priceCache[key] = { price, ts: now }] *)
Definition store (key : string) (p : option JsNumber.number) (t : Z)
    (priceCache : gmap string CacheEntry) : gmap string CacheEntry :=
  <[key := {| price := p; ts := t |}]> priceCache.

Definition fetchCurrentPrice (env : Env) (symbol : string)
    (priceCache : gmap string CacheEntry) : Outcome :=
  let key := JsString.toUpperCase symbol in
  let t := now env in
  let cached := priceCache !! key in
  if isFresh t cached then
    {| returned := cached ≫= price; cacheAfter := priceCache; requested := [] |}
  else if keyMissing (apiKey env) then
    {| returned := None; cacheAfter := store key None t priceCache;
       requested := [] |}
  else
    let url := quoteUrl key (default EmptyString (apiKey env)) in
    match tryQuote env url with
    | Normal p =>
        {| returned := p; cacheAfter := store key p t priceCache;
           requested := [url] |}
    | Throw =>
        {| returned := None; cacheAfter := store key None t priceCache;
           requested := [url] |}
    end.

(** ** The [trades] table and the aggregation query *)

Module Sql.

(** A row of [trades], with the columns the query reads.  NUMERIC columns
    are exact rationals; [POST /api/trades] refuses a trade that lacks one
    of the four fields, so no column holds NULL. *)
Record Trade : Type := {
  symbol : string;
  quantity : Qc;
  price : Qc;
  type : string
}.

(** A row of the result. *)
Record AggRow : Type := {
  agg_symbol : string;
  net_qty : Qc;
  avg_price : Qc
}.

Definition ofZ (z : Z) : Qc := Q2Qc (inject_Z z).

Section GroupBy.
Context {A K : Type} `{EqDecision K}.
Variable key : A -> K.

(** Put [r] into the group of its key, opening one when there is none. *)
Fixpoint addToGroup (r : A) (groups : list (K * list A)) : list (K * list A) :=
  match groups with
  | [] => [(key r, [r])]
  | (k, g) :: rest =>
      if decide (k = key r) then (k, r :: g) :: rest
      else (k, g) :: addToGroup r rest
  end.

(** [GROUP BY key]: the rows split by key, each group in table order. *)
Fixpoint groupBy (rows : list A) : list (K * list A) :=
  match rows with
  | [] => []
  | r :: rows' => addToGroup r (groupBy rows')
  end.
End GroupBy.

(** The aggregates, over the rows of one group (which is never empty). *)
Definition SUM {A : Type} (f : A -> Qc) (g : list A) : Qc :=
  foldr (fun r acc => f r + acc)%Qc 0%Qc g.

Definition COUNT {A : Type} (g : list A) : Qc := ofZ (Z.of_nat (length g)).

(** A quotient of NUMERIC values is a NUMERIC value: the engine gives it a
    number of decimals and rounds it to that many, a tie away from zero.
    [decimal n z] is the value with the digits of [z] and [n] decimals,
    [z / 10 ^ n]; [nearest x] is the integer nearest to [x]. *)
Definition tenTo (n : nat) : positive := Z.to_pos (10 ^ Z.of_nat n).

Definition decimal (n : nat) (z : Z) : Qc := Q2Qc (z # tenTo n).

Definition nearest (x : Q) : Z :=
  if Qle_bool 0 x then Qfloor (x + (1 # 2)) else - Qfloor (- x + (1 # 2)).

Definition roundAt (n : nat) (q : Qc) : Qc :=
  decimal n (nearest (q * inject_Z (Z.pos (tenTo n)))).

(** [AVG]: the sum divided by the count.  [scale] is the number of decimals
    the engine gives the quotient of a dividend by a divisor (PostgreSQL
    keeps about sixteen significant digits, counted in groups of four). *)
Definition AVG {A : Type} (scale : Qc -> Qc -> nat) (f : A -> Qc) (g : list A) : Qc :=
  roundAt (scale (SUM f g) (COUNT g)) (SUM f g / COUNT g)%Qc.

(** [CASE WHEN type='BUY' THEN quantity ELSE -quantity END] *)
Definition signedQuantity (t : Trade) : Qc :=
  if String.eqb (type t) "BUY" then quantity t else (- quantity t)%Qc.

(** [HAVING SUM(...) <> 0] *)
Definition having (group : string * list Trade) : Prop :=
  SUM signedQuantity group.2 ≠ 0%Qc.

#[global] Instance having_dec group : Decision (having group).
Proof. unfold having. apply _. Defined.

(** [SELECT symbol, SUM(...) AS net_qty, AVG(price) AS avg_price] *)
Definition select (scale : Qc -> Qc -> nat) (group : string * list Trade) : AggRow :=
  {| agg_symbol := group.1;
     net_qty := SUM signedQuantity group.2;
     avg_price := AVG scale price group.2 |}.

Definition aggregate (scale : Qc -> Qc -> nat) (trades : list Trade) : list AggRow :=
  select scale <$> filter having (groupBy symbol trades).

End Sql.

(** ** [GET /api/portfolio]: pricing the rows and totalling *)

(** A row of [agg.rows] as the driver hands it over: NUMERIC and BIGINT
    columns arrive as strings, floating-point and small integer ones as
    numbers, NULL as [null]; no column of this query arrives as an object or
    an array. *)
Record Row : Type := {
  row_symbol : string;
  row_net_qty : json;
  row_avg_price : json
}.

(** An element of [portfolio]; [None] is [null]. *)
Record Position : Type := {
  symbol : string;
  netQty : JsNumber.number;
  avgPrice : option JsNumber.number;
  currentPrice : option JsNumber.number;
  marketValue : option JsNumber.number
}.

(** The body of one iteration, given what [fetchCurrentPrice] returned. *)
Definition position (r : Row) (current : option JsNumber.number) : Position :=
  let netQty := Json.parseFloat (row_net_qty r) in
  {| symbol := row_symbol r;
     netQty := netQty;
     avgPrice :=
       match row_avg_price r with
       | JNull => None
       | v => Some (Json.parseFloat v)
       end;
     currentPrice := current;
     marketValue :=
       match current with
       | Some p => Some (JsNumber.toFixed4 (JsNumber.mul netQty p))
       | None => None
       end |}.

(** What the loop has produced so far. *)
Record Loop : Type := {
  portfolio : list Position;
  cache : gmap string CacheEntry;
  requests : list string
}.

(** [for (const r of rows) { ... }]; the [k]-th call of [fetchCurrentPrice]
    made for the request runs in [envs k]. *)
Fixpoint pricePositions (envs : nat -> Env) (k : nat) (rows : list Row)
    (acc : Loop) : Loop :=
  match rows with
  | [] => acc
  | r :: rows' =>
      let o := fetchCurrentPrice (envs k) (row_symbol r) (cache acc) in
      pricePositions envs (S k) rows'
        {| portfolio := portfolio acc ++ [position r (returned o)];
           cache := cacheAfter o;
           requests := requests acc ++ requested o |}
  end.

(** [p.marketValue || 0] *)
Definition orZero (v : option JsNumber.number) : JsNumber.number :=
  match v with
  | Some x => if JsNumber.toBoolean x then x else JsNumber.zero
  | None => JsNumber.zero
  end.

(** [portfolio.reduce((acc, p) => acc + (p.marketValue || 0), 0)] *)
Definition totalValue (portfolio : list Position) : JsNumber.number :=
  fold_left (fun acc p => JsNumber.add acc (orZero (marketValue p)))
    portfolio JsNumber.zero.

(** The body sent back, [{ portfolio, totalValue }], with the cache and the
    requests the route leaves behind. *)
Record View : Type := {
  view_portfolio : list Position;
  view_totalValue : JsNumber.number;
  view_cache : gmap string CacheEntry;
  view_requests : list string
}.

Definition buildView (envs : nat -> Env) (rows : list Row)
    (priceCache : gmap string CacheEntry) : View :=
  let l := pricePositions envs 0 rows
             {| portfolio := []; cache := priceCache; requests := [] |} in
  {| view_portfolio := portfolio l;
     view_totalValue := totalValue (portfolio l);
     view_cache := cache l;
     view_requests := requests l |}.

(** The route from the table to the view.  [text] is how the driver prints a
    NUMERIC value, [scale] the number of decimals the engine gives a
    quotient. *)
Definition rowOf (text : Qc -> string) (a : Sql.AggRow) : Row :=
  {| row_symbol := Sql.agg_symbol a;
     row_net_qty := JString (text (Sql.net_qty a));
     row_avg_price := JString (text (Sql.avg_price a)) |}.

Definition getPortfolio (text : Qc -> string) (scale : Qc -> Qc -> nat)
    (envs : nat -> Env) (trades : list Sql.Trade)
    (priceCache : gmap string CacheEntry) : View :=
  buildView envs (rowOf text <$> Sql.aggregate scale trades) priceCache.

(** * The claims

    The words of the specification, as definitions over the model: what each
    claim speaks of, and, for a claim that the code does not meet, the claim as
    it is stated. *)

(** ** The price cache: what the specification says *)

(** A fresh entry is returned without a request. *)
Definition fresh_entry_served : Prop :=
  forall (env : Env) (symbol : string) (priceCache : gmap string CacheEntry)
         (e : CacheEntry),
    priceCache !! JsString.toUpperCase symbol = Some e ->
    now env - ts e < CACHE_TTL_MS ->
    let o := fetchCurrentPrice env symbol priceCache in
    returned o = price e /\ requested o = [] /\ cacheAfter o = priceCache.

(** Two calls for one symbol, the second less than a TTL after the first,
    make at most one request between them. *)
Definition one_request_per_window : Prop :=
  forall (env1 env2 : Env) (symbol1 symbol2 : string)
         (priceCache : gmap string CacheEntry),
    JsString.toUpperCase symbol1 = JsString.toUpperCase symbol2 ->
    now env2 - now env1 < CACHE_TTL_MS ->
    let o1 := fetchCurrentPrice env1 symbol1 priceCache in
    let o2 := fetchCurrentPrice env2 symbol2 (cacheAfter o1) in
    (length (requested o1 ++ requested o2) <= 1)%nat.

(** A call that finds the entry expired makes exactly one request, whatever
    the configuration ([configured] restricts the environments looked at). *)
Definition one_request_after_expiry (configured : Env -> Prop) : Prop :=
  forall (env : Env) (symbol : string) (priceCache : gmap string CacheEntry)
         (e : CacheEntry),
    configured env ->
    priceCache !! JsString.toUpperCase symbol = Some e ->
    CACHE_TTL_MS <= now env - ts e ->
    length (requested (fetchCurrentPrice env symbol priceCache)) = 1%nat.

(** With no API key the expired entry is overwritten without a request. *)
Definition no_request_without_key : Prop :=
  forall (env : Env) (symbol : string) (priceCache : gmap string CacheEntry),
    keyMissing (apiKey env) = true ->
    requested (fetchCurrentPrice env symbol priceCache) = [].

(** Two characters that are equal or are the two cases of one letter. *)
Definition sameLetter (c1 c2 : ascii) : Prop :=
  c1 = c2 \/
  (JsString.isLower c1 = true /\ c2 = JsString.upperChar c1) \/
  (JsString.isLower c2 = true /\ c1 = JsString.upperChar c2).

(** Two spellings that differ only in letter case. *)
Inductive sameSpelling : string -> string -> Prop :=
  | sameSpelling_empty : sameSpelling EmptyString EmptyString
  | sameSpelling_cons c1 c2 s1 s2 :
      sameLetter c1 c2 -> sameSpelling s1 s2 ->
      sameSpelling (String c1 s1) (String c2 s2).

(** The price field of a quote body, when it has one: the member
    ['05. price'] of the object under ['Global Quote']. *)
Definition priceField (data : json) : option json :=
  match data with
  | JObject fields =>
      match Json.member "Global Quote" fields with
      | Some (JObject quote) => Json.member "05. price" quote
      | _ => None
      end
  | _ => None
  end.

(** The claim as stated: a body without a price field, or with one whose
    string does not parse to a finite number, makes the call store and return
    [null]. *)
Definition unparsable_price_is_null : Prop :=
  forall (env : Env) (symbol : string) (priceCache : gmap string CacheEntry)
         (data : json),
    let key := JsString.toUpperCase symbol in
    let url := quoteUrl key (default EmptyString (apiKey env)) in
    let o := fetchCurrentPrice env symbol priceCache in
    isFresh (now env) (priceCache !! key) = false ->
    keyMissing (apiKey env) = false ->
    fetch env url = Responds data ->
    (priceField data = None \/
     exists s, priceField data = Some (JString s) /\
               JsNumber.isFinite (JsString.parseFloat s) = false) ->
    returned o = None /\
    cacheAfter o = <[key := {| price := None; ts := now env |}]> priceCache.

(** A quote body whose price field is the string [p]. *)
Definition quoteOf (p : string) : json :=
  JObject [("Global Quote", JObject [("05. price", JString p)])].

(** ** The aggregation: what the specification says *)

(** The records of [trades] for one symbol, in table order. *)
Definition tradesOf (s : string) (trades : list Sql.Trade) : list Sql.Trade :=
  filter (fun t => Sql.symbol t = s) trades.

(** The sum of the quantities of the records of type [ty] for symbol [s]. *)
Definition sumQuantity (ty s : string) (trades : list Sql.Trade) : Qc :=
  Sql.SUM Sql.quantity (filter (fun t => Sql.type t = ty) (tradesOf s trades)).

(** Net quantity: what was bought less what was sold. *)
Definition netQuantity (s : string) (trades : list Sql.Trade) : Qc :=
  (sumQuantity "BUY" s trades - sumQuantity "SELL" s trades)%Qc.

(** The arithmetic mean of the price over all records for symbol [s]. *)
Definition meanPrice (s : string) (trades : list Sql.Trade) : Qc :=
  (Sql.SUM Sql.price (tradesOf s trades)
   / Sql.ofZ (Z.of_nat (length (tradesOf s trades))))%Qc.

(** The claim as stated, for an engine that gives its quotients [scale]
    decimals: the average price reported is the mean. *)
Definition reported_average_is_mean (scale : Qc -> Qc -> nat) : Prop :=
  forall (trades : list Sql.Trade) (row : Sql.AggRow),
    row ∈ Sql.aggregate scale trades ->
    Sql.avg_price row = meanPrice (Sql.agg_symbol row) trades.

(** Half a unit of the last of [n] decimals, [1 / (2 * 10 ^ n)]. *)
Definition halfUnit (n : nat) : Qc := Q2Qc (1 # (2 * Sql.tenTo n)).

(** An engine for the examples: it gives every quotient sixteen decimals. *)
Definition exampleScale (dividend divisor : Qc) : nat := 16%nat.

(** Trade records as the data model has them: the type is BUY or SELL. *)
Definition wellTyped (trades : list Sql.Trade) : Prop :=
  Forall (fun t => Sql.type t = "BUY" \/ Sql.type t = "SELL") trades.

(** A trade of [q] units at price [p]. *)
Definition trade (s : string) (ty : string) (q p : Z) : Sql.Trade :=
  {| Sql.symbol := s; Sql.quantity := Sql.ofZ q; Sql.price := Sql.ofZ p;
     Sql.type := ty |}.

(** ** The view: what the specification says *)

(** The sum of the market values, a [null] one counting as zero. *)
Definition sumOfMarketValues (portfolio : list Position) : JsNumber.number :=
  fold_left (fun acc p => JsNumber.add acc (default JsNumber.zero (marketValue p)))
    portfolio JsNumber.zero.

(** The claim as stated. *)
Definition total_is_sum_of_market_values : Prop :=
  forall (envs : nat -> Env) (rows : list Row) (priceCache : gmap string CacheEntry),
    let v := buildView envs rows priceCache in
    view_totalValue v = sumOfMarketValues (view_portfolio v).

(** What a market value adds to the total: nothing when it is [null], [NaN]
    or a zero, itself otherwise. *)
Definition contribution (v : option JsNumber.number) : JsNumber.number :=
  match v with
  | None => JsNumber.zero
  | Some x =>
      if JsNumber.isNaN x then JsNumber.zero
      else match x with S754_zero _ => JsNumber.zero | _ => x end
  end.

(** * The rest of the program

    The routes that write the table, the form of the page that posts to
    them, and the words the further properties are stated in. *)

(** ** The ledger routes: [POST /api/trades], [DELETE /api/trades/:id] *)

(** What a route sends back: a body with status 200, or one of the two
    error bodies, [{ error: 'Missing fields: ...' }] with status 400 and
    [{ error: 'Server error' }] with status 500. *)
Inductive Response (A : Type) : Type :=
  | Json200 (body : A)
  | Status400
  | Status500.
Arguments Json200 {A} body.
Arguments Status400 {A}.
Arguments Status500 {A}.

(** [String(v)], for a [v] that [String] prints ([Json.unprintable] tells
    the others, on which it throws).  How a number prints
    ([Number::toString]) is left open. *)
Fixpoint toString (numberToString : JsNumber.number -> string) (v : json) : string :=
  match v with
  | JNull => "null"
  | JBool true => "true"
  | JBool false => "false"
  | JNumber x => numberToString x
  | JString s => s
  | JArray items =>
      (fix join (l : list json) : string :=
         match l with
         | [] => EmptyString
         | item :: rest =>
             let printed :=
               match item with
               | JNull => EmptyString
               | _ => toString numberToString item
               end in
             match rest with
             | [] => printed
             | _ => printed +:+ "," +:+ join rest
             end
         end) items
  | JObject _ => "[object Object]"
  end.

(** A row of [trades]: the key the engine gave it, and the columns the
    aggregation reads. *)
Record TradeRow (Id : Type) : Type := { id : Id; record : Sql.Trade }.
Arguments id {Id} _.
Arguments record {Id} _.

(** [const { symbol, quantity, price, type } = req.body]: one of the four,
    [None] when the body does not have it.  Reading them off [null] or
    [undefined] throws. *)
Definition field (k : string) (body : json) : option json :=
  match body with
  | JObject fields => Json.member k fields
  | _ => None
  end.

(** ToBoolean of a value that may be [undefined]. *)
Definition truthy (v : option json) : bool :=
  match v with
  | Some v => Json.toBoolean v
  | None => false
  end.

Section Ledger.
Context {Id : Type} `{EqDecision Id}.

(** How a number prints, how the engine reads a parameter bound for a
    NUMERIC column ([None] when it refuses it), and how it reads the text of
    a key. *)
Variable numberToString : JsNumber.number -> string.
Variable numeric : json -> option Qc.
Variable readId : string -> option Id.

(** [POST /api/trades].  [body] is [req.body] ([None] when the request had no
    body to parse); [engine] is the key the engine gives the new row, [None]
    when the query fails on the engine's side, for whatever reason (a
    constraint of the table, a lost connection).  [String(symbol)] and
    [String(type)] are evaluated before the query is sent: when either
    throws, the [catch] answers 500 and nothing is written.  The row sent
    back is the one inserted. *)
Definition postTrade (engine : option Id) (body : option json)
    (table : list (TradeRow Id)) : Response (TradeRow Id) * list (TradeRow Id) :=
  match body with
  | None | Some JNull => (Status500, table)
  | Some b =>
      let symbol := field "symbol" b in
      let quantity := field "quantity" b in
      let price := field "price" b in
      let type := field "type" b in
      if negb (truthy symbol) || negb (truthy quantity)
         || negb (truthy price) || negb (truthy type)
      then (Status400, table)
      else if Json.unprintable (default JNull symbol)
              || Json.unprintable (default JNull type)
      then (Status500, table)
      else
        match engine, numeric (default JNull quantity), numeric (default JNull price) with
        | Some i, Some q, Some p =>
            let row :=
              {| id := i;
                 record :=
                   {| Sql.symbol :=
                        JsString.toUpperCase
                          (toString numberToString (default JNull symbol));
                      Sql.quantity := q;
                      Sql.price := p;
                      Sql.type :=
                        JsString.toUpperCase
                          (toString numberToString (default JNull type)) |} |} in
            (Json200 row, table ++ [row])
        | _, _, _ => (Status500, table)
        end
  end.

(** [DELETE /api/trades/:id]; the body sent back is [{ success: true }].
    [up] tells whether the query reaches the engine. *)
Definition deleteTrade (up : bool) (idText : string)
    (table : list (TradeRow Id)) : Response unit * list (TradeRow Id) :=
  match up, readId idText with
  | true, Some i => (Json200 tt, filter (fun r => id r ≠ i) table)
  | _, _ => (Status500, table)
  end.

(** The query of [GET /api/portfolio] reads the trades of the table. *)
Definition trades (table : list (TradeRow Id)) : list Sql.Trade :=
  record <$> table.

(** A request that writes, and what a sequence of them leaves. *)
Inductive Request : Type :=
  | Post (engine : option Id) (body : option json)
  | Delete (up : bool) (idText : string).

Definition handle (table : list (TradeRow Id)) (r : Request) : list (TradeRow Id) :=
  match r with
  | Post engine body => (postTrade engine body table).2
  | Delete up idText => (deleteTrade up idText table).2
  end.

Definition handleAll (requests : list Request) (table : list (TradeRow Id))
    : list (TradeRow Id) :=
  fold_left handle requests table.

End Ledger.

(** ** The form of the page: [parseNumber], [submitTrade] *)

Module Page.

(** [s.trimEnd()] and [s.trim()] *)
Fixpoint trimEnd (s : string) : string :=
  match s with
  | EmptyString => EmptyString
  | String c s' =>
      match trimEnd s' with
      | EmptyString => if JsString.isWhiteSpace c then EmptyString
                       else String c EmptyString
      | rest => String c rest
      end
  end.

Definition trim (s : string) : string := trimEnd (JsString.trimStart s).

(** The digits of a literal in base 2, 8 or 16: the value of the whole of
    [s], [None] when [s] is empty or holds another character. *)
Definition digitOf (base : N) (c : ascii) : option N :=
  let n := JsString.code c in
  let d :=
    if JsString.isDigit c then Some (Z.to_N (n - 48))
    else if (97 <=? n) && (n <=? 102) then Some (Z.to_N (n - 87))
    else if (65 <=? n) && (n <=? 70) then Some (Z.to_N (n - 55))
    else None in
  match d with
  | Some d => if (d <? base)%N then Some d else None
  | None => None
  end.

Fixpoint digitsIn (base : N) (s : string) (acc : N) : option N :=
  match s with
  | EmptyString => Some acc
  | String c s' =>
      match digitOf base c with
      | Some d => digitsIn base s' (base * acc + d)%N
      | None => None
      end
  end.

Definition nonDecimal (base : N) (s : string) : JsNumber.number :=
  match s with
  | EmptyString => JsNumber.NaN
  | _ =>
      match digitsIn base s 0%N with
      | Some n => JsNumber.ofDecimal false n 0
      | None => JsNumber.NaN
      end
  end.

(** ExponentPart at the head of [s]: the exponent and what follows it; [s]
    itself, with exponent [0], when there is none. *)
Definition exponentRest (s : string) : Z * string :=
  match s with
  | String c s' =>
      if bool_decide (c = "e"%char ∨ c = "E"%char) then
        let '(neg, s'') := JsString.sign s' in
        let '(e, count, rest) := JsString.digits s'' 0%N 0%nat in
        match count with
        | O => (0, s)
        | S _ => (if neg then - Z.of_N e else Z.of_N e, rest)
        end
      else (0, s)
  | EmptyString => (0, s)
  end.

(** StrDecimalLiteral: the value of the whole of [s], [NaN] when [s] is
    not one. *)
Definition decimal (s : string) : JsNumber.number :=
  let '(neg, s1) := JsString.sign s in
  if String.eqb s1 "Infinity" then S754_infinity neg
  else
    let '(int, nInt, s2) := JsString.digits s1 0%N 0%nat in
    let '(mant, nFrac, s3) :=
      match s2 with
      | String "." s2' => JsString.digits s2' int 0%nat
      | _ => (int, 0%nat, s2)
      end in
    match nInt, nFrac with
    | O, O => JsNumber.NaN
    | _, _ =>
        let '(e, rest) := exponentRest s3 in
        match rest with
        | EmptyString => JsNumber.ofDecimal neg mant (e - Z.of_nat nFrac)
        | _ => JsNumber.NaN
        end
    end.

(** [Number(s)] for a string: white space around the literal is skipped,
    the empty string is [0], and the rest must be a numeric literal as a
    whole. *)
Definition toNumber (s : string) : JsNumber.number :=
  match trim s with
  | EmptyString => JsNumber.zero
  | String "0" (String c rest) as t =>
      if bool_decide (c = "x"%char ∨ c = "X"%char) then nonDecimal 16 rest
      else if bool_decide (c = "o"%char ∨ c = "O"%char) then nonDecimal 8 rest
      else if bool_decide (c = "b"%char ∨ c = "B"%char) then nonDecimal 2 rest
      else decimal t
  | t => decimal t
  end.

(** [parseNumber(v)]; [None] is [null] or [undefined]. *)
Definition parseNumber (v : option string) : JsNumber.number :=
  match v with
  | None | Some EmptyString => JsNumber.zero
  | Some s =>
      let n := toNumber s in
      if JsNumber.isFinite n then n else JsNumber.zero
  end.

(** The state [form]. *)
Record Form : Type := {
  symbol : string;
  quantity : string;
  price : string;
  type : string
}.

(** What [JSON.stringify] followed by the server's [JSON.parse] makes of a
    number: [NaN] and the infinities become [null], [-0] becomes [0], any
    other number is printed and read back as itself. *)
Definition sent (x : JsNumber.number) : json :=
  match x with
  | S754_nan | S754_infinity _ => JNull
  | S754_zero _ => JNumber JsNumber.zero
  | _ => JNumber x
  end.

(** The body [submitTrade] posts, as the server receives it; [None] when it
    stops at the alert asking for a symbol. *)
Definition posted (form : Form) : option json :=
  if negb (JsString.toBoolean (symbol form))
     || negb (JsString.toBoolean (trim (symbol form)))
  then None
  else
    Some (JObject
            [("symbol", JString (JsString.toUpperCase (trim (symbol form))));
             ("quantity", sent (parseNumber (Some (quantity form))));
             ("price", sent (parseNumber (Some (price form))));
             ("type", JString (type form))]).

(** How [submitTrade] ends: at the alert asking for a symbol, at the alert
    that tells of a failure, or with the form cleared. *)
Inductive Submitted : Type :=
  | AskedForSymbol
  | Failed
  | Cleared.

End Page.

(** [submitTrade] against the server: the request reaches the route, and
    [res.ok] tells a 200 from the rest.  It ends at the alert asking for a
    symbol without a request, at the alert telling of a failure, or with the
    form cleared. *)
Definition submitTrade {Id : Type} (numberToString : JsNumber.number -> string)
    (numeric : json -> option Qc) (engine : option Id) (form : Page.Form)
    (table : list (TradeRow Id)) : Page.Submitted * list (TradeRow Id) :=
  match Page.posted form with
  | None => (Page.AskedForSymbol, table)
  | Some body =>
      match postTrade numberToString numeric engine (Some body) table with
      | (Json200 _, table') => (Page.Cleared, table')
      | (_, table') => (Page.Failed, table')
      end
  end.

(** Rows as [POST /api/trades] writes them: no lower-case letter in the
    symbol or in the type. *)
Definition upperCased {Id : Type} (table : list (TradeRow Id)) : Prop :=
  Forall (fun r => hasLower (Sql.symbol (record r)) = false /\
                   hasLower (Sql.type (record r)) = false) table.

(** ** Words for the further properties *)

(** The key of a row of the result in the price cache. *)
Definition rowKey (r : Row) : string := JsString.toUpperCase (row_symbol r).

(** A cache that holds no price: every entry is [{ price: null, ... }]. *)
Definition unpriced (priceCache : gmap string CacheEntry) : Prop :=
  forall key e, priceCache !! key = Some e -> price e = None.

(** The sum of the quantities of the records for symbol [s] whose type is
    anything but ['BUY']. *)
Definition sumNotBuy (s : string) (trades : list Sql.Trade) : Qc :=
  Sql.SUM Sql.quantity
    (filter (fun t => Sql.type t ≠ "BUY") (tradesOf s trades)).

(** A percent sign, or a character [encodeURIComponent] leaves as it is. *)
Definition urlSafe (c : ascii) : bool :=
  JsString.isUnreserved c || (JsString.code c =? 37).

Fixpoint allChars (P : ascii -> bool) (s : string) : bool :=
  match s with
  | EmptyString => true
  | String c s' => P c && allChars P s'
  end.

(** An engine for the examples: it reads a whole number as that number and
    refuses anything else, and reads a key written in decimal digits. *)
Definition wholeNumber (x : JsNumber.number) : option Z :=
  match x with
  | S754_zero _ => Some 0
  | S754_finite s m e =>
      let sign := if s then -1 else 1 in
      if 0 <=? e then Some (sign * Z.pos m * 2 ^ e)
      else if Z.pos m mod 2 ^ (- e) =? 0 then Some (sign * (Z.pos m / 2 ^ (- e)))
      else None
  | _ => None
  end.

Definition exampleNumeric (v : json) : option Qc :=
  match v with
  | JNumber x => Sql.ofZ <$> wholeNumber x
  | _ => None
  end.

Definition exampleReadId (s : string) : option Z :=
  match JsString.digits s 0%N 0%nat with
  | (n, S _, EmptyString) => Some (Z.of_N n)
  | _ => None
  end.

Definition examplePrint (x : JsNumber.number) : string := EmptyString.

(** The body of a request that posts a trade. *)
Definition tradeBody (s ty : string) (q p : Z) : json :=
  JObject [("symbol", JString s); ("quantity", JNumber (JsNumber.ofZ q));
           ("price", JNumber (JsNumber.ofZ p)); ("type", JString ty)].

(** * Properties *)

(** ** The price cache *)

Section PriceCache.
Implicit Types (env : Env) (symbol key : string)
  (priceCache : gmap string CacheEntry) (e : CacheEntry).

Lemma isFresh_Some t e :
  isFresh t (Some e) = true <-> t - ts e < CACHE_TTL_MS.
Proof. unfold isFresh. apply Z.ltb_lt. Qed.

Lemma isFresh_stale t e :
  isFresh t (Some e) = false <-> CACHE_TTL_MS <= t - ts e.
Proof. unfold isFresh. apply Z.ltb_ge. Qed.

Lemma isFresh_store key p t t' priceCache :
  isFresh t' (store key p t priceCache !! key) = (t' - t <? CACHE_TTL_MS).
Proof. unfold store. by rewrite lookup_insert_eq. Qed.

Lemma store_lookup key p t priceCache :
  store key p t priceCache !! key = Some {| price := p; ts := t |}.
Proof. apply lookup_insert_eq. Qed.

Lemma store_lookup_ne key k p t priceCache :
  k ≠ key -> store key p t priceCache !! k = priceCache !! k.
Proof. intros. unfold store. by rewrite lookup_insert_ne. Qed.

(** A hit: the entry's price comes back, nothing is written or requested. *)
Lemma fetchCurrentPrice_hit env symbol priceCache :
  isFresh (now env) (priceCache !! JsString.toUpperCase symbol) = true ->
  fetchCurrentPrice env symbol priceCache =
    {| returned := priceCache !! JsString.toUpperCase symbol ≫= price;
       cacheAfter := priceCache;
       requested := [] |}.
Proof. intros H. unfold fetchCurrentPrice. by rewrite H. Qed.

(** Without a fresh entry and without a key: [null] is stored, nothing is
    requested. *)
Lemma fetchCurrentPrice_no_key env symbol priceCache :
  isFresh (now env) (priceCache !! JsString.toUpperCase symbol) = false ->
  keyMissing (apiKey env) = true ->
  fetchCurrentPrice env symbol priceCache =
    {| returned := None;
       cacheAfter := store (JsString.toUpperCase symbol) None (now env) priceCache;
       requested := [] |}.
Proof. intros H1 H2. unfold fetchCurrentPrice. by rewrite H1, H2. Qed.

(** Without a fresh entry and with a key: one request, and what the [try]
    block computes (or [null] when it throws) is stored and returned. *)
Lemma fetchCurrentPrice_refresh env symbol priceCache :
  isFresh (now env) (priceCache !! JsString.toUpperCase symbol) = false ->
  keyMissing (apiKey env) = false ->
  let key := JsString.toUpperCase symbol in
  let url := quoteUrl key (default EmptyString (apiKey env)) in
  let p := match tryQuote env url with Normal p => p | Throw => None end in
  fetchCurrentPrice env symbol priceCache =
    {| returned := p;
       cacheAfter := store key p (now env) priceCache;
       requested := [url] |}.
Proof.
  intros H1 H2. unfold fetchCurrentPrice. rewrite H1, H2. simpl.
  by destruct (tryQuote env _).
Qed.

(** Every call ends in one of two ways: the cache is as it was and nothing
    was requested, or the returned value was stored under the upper-cased
    symbol with the time of the call. *)
Lemma fetchCurrentPrice_cases env symbol priceCache :
  let key := JsString.toUpperCase symbol in
  let o := fetchCurrentPrice env symbol priceCache in
  (isFresh (now env) (priceCache !! key) = true /\
   returned o = priceCache !! key ≫= price /\
   cacheAfter o = priceCache /\ requested o = [])
  \/
  (isFresh (now env) (priceCache !! key) = false /\
   cacheAfter o = store key (returned o) (now env) priceCache /\
   requested o =
     if keyMissing (apiKey env) then []
     else [quoteUrl key (default EmptyString (apiKey env))]).
Proof.
  intros key o. subst o.
  destruct (isFresh (now env) (priceCache !! key)) eqn:Hf.
  - left. by rewrite fetchCurrentPrice_hit.
  - right. destruct (keyMissing (apiKey env)) eqn:Hk.
    + by rewrite fetchCurrentPrice_no_key.
    + by rewrite fetchCurrentPrice_refresh.
Qed.

Lemma requested_length env symbol priceCache :
  (length (requested (fetchCurrentPrice env symbol priceCache)) <= 1)%nat.
Proof.
  destruct (fetchCurrentPrice_cases env symbol priceCache)
    as [(_ & _ & _ & ->)|(_ & _ & ->)]; [simpl; lia|].
  destruct (keyMissing _); simpl; lia.
Qed.

Lemma tryQuote_Rejects env url :
  fetch env url = Rejects -> tryQuote env url = Throw.
Proof. unfold tryQuote. by intros ->. Qed.

End PriceCache.

Lemma isLower_upperChar (c : ascii) : JsString.isLower (JsString.upperChar c) = false.
Proof. destruct c as [[] [] [] [] [] [] [] []]; reflexivity. Qed.

Lemma hasLower_toUpperCase (s : string) : hasLower (JsString.toUpperCase s) = false.
Proof.
  induction s as [|c s IH]; [done|]. simpl. by rewrite isLower_upperChar, IH.
Qed.

Lemma toUpperCase_not_prototype (s : string) :
  JsString.toUpperCase s ∉ objectPrototypeNames.
Proof.
  intros Hin. pose proof (hasLower_toUpperCase s) as Hl.
  assert (Hall : Forall (fun n => hasLower n = true) objectPrototypeNames)
    by (repeat constructor).
  rewrite Forall_forall in Hall. apply Hall in Hin. congruence.
Qed.

(** *** C10: the returned value is the stored one *)

(** C10.  After any call of [fetchCurrentPrice] the cache holds an entry
    under the upper-cased symbol, and the value returned is that entry's
    price: on a hit, without a key, after a successful request, after an
    unreadable body and after a failed request alike. *)
Theorem fetchCurrentPrice_returns_stored (env : Env) (symbol : string)
    (priceCache : gmap string CacheEntry) :
  let o := fetchCurrentPrice env symbol priceCache in
  exists e : CacheEntry,
    cacheAfter o !! JsString.toUpperCase symbol = Some e /\
    returned o = price e.
Proof.
  intros o. subst o.
  destruct (fetchCurrentPrice_cases env symbol priceCache)
    as [(Hf & Hr & Hc & _)|(_ & Hc & _)].
  - rewrite Hr, Hc.
    destruct (priceCache !! JsString.toUpperCase symbol) as [e|] eqn:He;
      [|discriminate].
    by exists e.
  - rewrite Hc, store_lookup. by eexists.
Qed.

(** *** C5: no key, or a request that fails *)

(** C5.  When the cache has no fresh entry for the symbol and either no API
    key is configured or the [try] block throws (the request is rejected, the
    body is not JSON, or it is [null]), the call returns [null], having
    overwritten the entry of the upper-cased symbol with
    [{ price: null, ts: now }]; it requested nothing in the first case and
    the quote URL, once, in the second.  The error is caught: the call ends
    in a value. *)
Theorem fetchCurrentPrice_failure (env : Env) (symbol : string)
    (priceCache : gmap string CacheEntry) :
  let key := JsString.toUpperCase symbol in
  let url := quoteUrl key (default EmptyString (apiKey env)) in
  let o := fetchCurrentPrice env symbol priceCache in
  isFresh (now env) (priceCache !! key) = false ->
  keyMissing (apiKey env) = true \/ tryQuote env url = Throw ->
  returned o = None /\
  cacheAfter o = <[key := {| price := None; ts := now env |}]> priceCache /\
  requested o = if keyMissing (apiKey env) then [] else [url].
Proof.
  intros key url o Hf H. subst o.
  destruct (keyMissing (apiKey env)) eqn:Hk.
  - by rewrite fetchCurrentPrice_no_key.
  - destruct H as [?|Ht]; [done|].
    rewrite fetchCurrentPrice_refresh by done. simpl.
    fold key url. by rewrite Ht.
Qed.

(** A rejected request at time 5000, with a key and an empty cache. *)
Lemma fetchCurrentPrice_failure_witness :
  let env := {| apiKey := Some "demo"; now := 5000; fetch := fun _ => Rejects |} in
  let o := fetchCurrentPrice env "aapl" ∅ in
  returned o = None /\
  cacheAfter o = <[ "AAPL" := {| price := None; ts := 5000 |}]> ∅ /\
  requested o =
    ["https://www.alphavantage.co/query?function=GLOBAL_QUOTE&symbol=AAPL&apikey=demo"].
Proof.
  apply (fetchCurrentPrice_failure
           {| apiKey := Some "demo"; now := 5000; fetch := fun _ => Rejects |}
           "aapl" ∅).
  - reflexivity.
  - right. reflexivity.
Defined.

(** *** C1: freshness and the number of requests *)

(** C1 as stated fails: with no API key configured, a call made 70 seconds
    after the entry was written requests nothing. *)
Lemma one_request_after_expiry_fails :
  ~ (fresh_entry_served /\ one_request_per_window /\
     one_request_after_expiry (fun _ => True)).
Proof.
  intros (_ & _ & H).
  specialize (H {| apiKey := None; now := 70000; fetch := fun _ => Rejects |}
                "AAPL" {[ "AAPL" := {| price := Some (JsNumber.ofZ 150); ts := 0 |} ]}
                {| price := Some (JsNumber.ofZ 150); ts := 0 |} I).
  vm_compute in H. specialize (H eq_refl).
  assert (Hle : 60000 <= 70000) by lia.
  specialize (H Hle). discriminate H.
Qed.

(** C1, amended.  A fresh entry (one with [now - ts < 60000]) under the
    upper-cased symbol is returned as it is, with no request and no write;
    two calls for one symbol less than a TTL apart make at most one request
    between them; a call that finds the entry expired makes exactly one
    request when an API key is configured, and none when it is not. *)
Theorem cache_bounds_requests :
  fresh_entry_served /\ one_request_per_window /\
  one_request_after_expiry (fun env => keyMissing (apiKey env) = false) /\
  no_request_without_key.
Proof.
  repeat split.
  - rewrite fetchCurrentPrice_hit; [by rewrite H|].
    rewrite H. by apply isFresh_Some.
  - by rewrite fetchCurrentPrice_hit by (rewrite H; by apply isFresh_Some).
  - by rewrite fetchCurrentPrice_hit by (rewrite H; by apply isFresh_Some).
  - intros env1 env2 s1 s2 priceCache Hkey Hwin o1 o2. subst o1 o2.
    rewrite length_app.
    destruct (fetchCurrentPrice_cases env1 s1 priceCache)
      as [(_ & _ & _ & ->)|(_ & -> & _)].
    + pose proof (requested_length env2 s2
                    (cacheAfter (fetchCurrentPrice env1 s1 priceCache))).
      simpl. lia.
    + rewrite (fetchCurrentPrice_hit env2 s2).
      * pose proof (requested_length env1 s1 priceCache). simpl. lia.
      * rewrite <- Hkey, isFresh_store. by apply Z.ltb_lt.
  - intros env symbol priceCache e Hk He Hstale.
    rewrite fetchCurrentPrice_refresh; [done| |done].
    rewrite He. by apply isFresh_stale.
  - intros env symbol priceCache Hk.
    destruct (fetchCurrentPrice_cases env symbol priceCache)
      as [(_ & _ & _ & ->)|(_ & _ & ->)]; [done|]. by rewrite Hk.
Qed.

(** An entry written at 0 with a key configured: served at 59999, requested
    anew (once) at 60000, and a second call 59999 ms later is served from what
    the first one stored. *)
Lemma cache_bounds_requests_witness :
  let entry := {| price := Some (JsNumber.ofZ 150); ts := 0 |} in
  let priceCache : gmap string CacheEntry := {[ "AAPL" := entry ]} in
  let env t := {| apiKey := Some "demo"; now := t; fetch := fun _ => Rejects |} in
  (returned (fetchCurrentPrice (env 59999) "aapl" priceCache) = price entry /\
   requested (fetchCurrentPrice (env 59999) "aapl" priceCache) = [] /\
   cacheAfter (fetchCurrentPrice (env 59999) "aapl" priceCache) = priceCache) /\
  (let o1 := fetchCurrentPrice (env 60000) "aapl" priceCache in
   let o2 := fetchCurrentPrice (env 119999) "AAPL" (cacheAfter o1) in
   (length (requested o1 ++ requested o2) <= 1)%nat) /\
  length (requested (fetchCurrentPrice (env 60000) "aapl" priceCache)) = 1%nat /\
  requested (fetchCurrentPrice
               {| apiKey := None; now := 60000; fetch := fun _ => Rejects |}
               "aapl" priceCache) = [].
Proof.
  intros entry priceCache env.
  destruct cache_bounds_requests as (H1 & H2 & H3 & H4).
  split; [|split; [|split]].
  - apply (H1 (env 59999) "aapl" priceCache entry); [reflexivity|].
    vm_compute. reflexivity.
  - apply (H2 (env 60000) (env 119999) "aapl" "AAPL" priceCache); [reflexivity|].
    vm_compute. reflexivity.
  - apply (H3 (env 60000) "aapl" priceCache entry); [reflexivity|reflexivity|].
    vm_compute. discriminate.
  - apply (H4 {| apiKey := None; now := 60000; fetch := fun _ => Rejects |}
             "aapl" priceCache). reflexivity.
Defined.

(** *** C9: the symbol is upper-cased *)

Lemma upperChar_idemp (c : ascii) :
  JsString.upperChar (JsString.upperChar c) = JsString.upperChar c.
Proof. destruct c as [[] [] [] [] [] [] [] []]; reflexivity. Qed.

Lemma sameLetter_upperChar (c1 c2 : ascii) :
  sameLetter c1 c2 -> JsString.upperChar c1 = JsString.upperChar c2.
Proof.
  intros [->|[[_ ->]|[_ ->]]]; [done| |]; by rewrite upperChar_idemp.
Qed.

Lemma sameSpelling_toUpperCase (s1 s2 : string) :
  sameSpelling s1 s2 -> JsString.toUpperCase s1 = JsString.toUpperCase s2.
Proof.
  induction 1 as [|c1 c2 s1 s2 Hc _ IH]; [done|].
  simpl. by rewrite (sameLetter_upperChar _ _ Hc), IH.
Qed.

(** What a call leaves for a later one under a spelling with the same key:
    the key holds what was returned, other keys are as they were, and the
    later call, made at the same time, is served without a request. *)
Lemma fetchCurrentPrice_shared (env : Env) (symbol1 symbol2 : string)
    (priceCache : gmap string CacheEntry) :
  JsString.toUpperCase symbol1 = JsString.toUpperCase symbol2 ->
  let key := JsString.toUpperCase symbol1 in
  let o1 := fetchCurrentPrice env symbol1 priceCache in
  (isFresh (now env) (priceCache !! key) = false ->
   cacheAfter o1 =
     <[key := {| price := returned o1; ts := now env |}]> priceCache) /\
  (exists e, cacheAfter o1 !! key = Some e /\ returned o1 = price e) /\
  (forall k, k ≠ key -> cacheAfter o1 !! k = priceCache !! k) /\
  fetchCurrentPrice env symbol2 (cacheAfter o1) =
    {| returned := returned o1; cacheAfter := cacheAfter o1; requested := [] |}.
Proof.
  intros Hs key o1. subst o1.
  destruct (fetchCurrentPrice_cases env symbol1 priceCache)
    as [(Hf & Hr & Hc & _)|(Hf & Hc & _)]; fold key in Hf, Hc; rewrite Hc.
  - fold key in Hr. rewrite Hr. split; [by rewrite Hf|].
    split.
    { destruct (priceCache !! key) as [e|] eqn:He; [|discriminate]. by exists e. }
    split; [done|].
    rewrite fetchCurrentPrice_hit; rewrite <- Hs; by fold key.
  - split; [done|]. split; [rewrite store_lookup; by eexists|].
    split; [intros k Hk; by apply store_lookup_ne|].
    rewrite fetchCurrentPrice_hit; rewrite <- Hs; fold key.
    + by rewrite store_lookup.
    + rewrite isFresh_store. by rewrite Z.sub_diag.
Qed.

(** C9.  The symbol is upper-cased before the cache is read or written.
    Two spellings that differ only in the case of their letters (the letters
    [a] to [z], for [sameSpelling]; any two spellings with one upper-cased
    form, in general) have one key, the symbol in upper case, and a call does
    the same under either (same value, same cache, same requests).  The
    entry read is the one under that key: when it is fresh, its price is
    returned and nothing else happens.  The entry written is the one under
    that key: when no fresh entry is found there, the value returned is
    stored under it with the time of the call.  After the call the key holds
    an entry with the value returned, no entry under another key (the symbol
    as it was spelled, say) has changed, and a call under the second
    spelling made at the same time right after one under the first is served
    from the entry the first one left, without a request. *)
Theorem fetchCurrentPrice_case_insensitive (env : Env) (symbol1 symbol2 : string)
    (priceCache : gmap string CacheEntry) :
  sameSpelling symbol1 symbol2 \/
  JsString.toUpperCase symbol1 = JsString.toUpperCase symbol2 ->
  let key := JsString.toUpperCase symbol1 in
  let o1 := fetchCurrentPrice env symbol1 priceCache in
  (JsString.toUpperCase symbol2 = key /\ hasLower key = false) /\
  fetchCurrentPrice env symbol2 priceCache = o1 /\
  (forall e, priceCache !! key = Some e -> now env - ts e < CACHE_TTL_MS ->
             o1 = {| returned := price e; cacheAfter := priceCache;
                     requested := [] |}) /\
  (isFresh (now env) (priceCache !! key) = false ->
   cacheAfter o1 =
     <[key := {| price := returned o1; ts := now env |}]> priceCache) /\
  (exists e, cacheAfter o1 !! key = Some e /\ returned o1 = price e) /\
  (forall k, k ≠ key -> cacheAfter o1 !! k = priceCache !! k) /\
  fetchCurrentPrice env symbol2 (cacheAfter o1) =
    {| returned := returned o1; cacheAfter := cacheAfter o1; requested := [] |}.
Proof.
  intros [Hs%sameSpelling_toUpperCase|Hs] key o1; subst o1;
    (split; [split; [done|apply hasLower_toUpperCase]|]);
    (split; [unfold fetchCurrentPrice; by rewrite <- Hs|]);
    (split;
       [intros e He Hfresh; rewrite fetchCurrentPrice_hit; fold key; rewrite He;
          [done|by apply isFresh_Some]|]);
    by apply fetchCurrentPrice_shared.
Qed.

(** ["aapl"] and ["AAPL"] asked at time 1000.  With a price of 150 stored
    under ["AAPL"] at time 0, either spelling is answered from that entry.
    With an empty cache and the provider quoting 189.98, either spelling
    requests the quote for AAPL and stores it under ["AAPL"], and the other
    spelling is then answered from that entry. *)
Lemma fetchCurrentPrice_case_insensitive_witness :
  let entry := {| price := Some (JsNumber.ofZ 150); ts := 0 |} in
  let priceCache : gmap string CacheEntry := {[ "AAPL" := entry ]} in
  let env := {| apiKey := Some "demo"; now := 1000;
                fetch := fun _ => Responds (quoteOf "189.9800") |} in
  let served := {| returned := Some (JsNumber.ofZ 150); cacheAfter := priceCache;
                   requested := [] |} in
  let o1 := fetchCurrentPrice env "aapl" ∅ in
  (fetchCurrentPrice env "aapl" priceCache = served /\
   fetchCurrentPrice env "AAPL" priceCache = served) /\
  (fetchCurrentPrice env "AAPL" ∅ = o1 /\
   cacheAfter o1 = {[ "AAPL" := {| price := returned o1; ts := 1000 |} ]} /\
   (forall k, k ≠ "AAPL" -> cacheAfter o1 !! k = None) /\
   fetchCurrentPrice env "AAPL" (cacheAfter o1) =
     {| returned := returned o1; cacheAfter := cacheAfter o1; requested := [] |}).
Proof.
  intros entry priceCache env served o1.
  assert (Hs : sameSpelling "aapl" "AAPL").
  { repeat (apply sameSpelling_cons; [right; left; split; reflexivity|]).
    apply sameSpelling_empty. }
  split.
  - destruct (fetchCurrentPrice_case_insensitive env "aapl" "AAPL" priceCache
                (or_introl Hs)) as (_ & H2 & H3 & _).
    rewrite H2. split; apply (H3 entry); reflexivity.
  - destruct (fetchCurrentPrice_case_insensitive env "aapl" "AAPL" ∅
                (or_introl Hs)) as (_ & H2 & _ & H4 & _ & H6 & H7).
    split; [exact H2|]. split; [apply H4; reflexivity|].
    split; [exact H6|exact H7].
Defined.

(** *** C6: the price field of the body *)

(** What lines 48 to 50 leave in [price], in terms of the price field; the
    TypeError that a [null] body or a price field that cannot be printed
    raises ends in the [catch] block, with [null]. *)
Lemma quotePrice_priceField (data : json) :
  match quotePrice data with Normal p => p | Throw => None end =
  match priceField data with
  | Some v =>
      if Json.toBoolean v && negb (Json.unprintable v)
      then Some (Json.parseFloat v) else None
  | None => None
  end.
Proof.
  unfold quotePrice, priceField.
  destruct data as [| | | | |fields]; try done.
  simpl. destruct (Json.member "Global Quote" fields) as [q|]; [|done].
  destruct q as [|[]|x|s| |quote]; try done.
  - by destruct x.
  - by destruct s.
  - simpl. destruct (Json.member "05. price" quote) as [v|]; [|done]. simpl.
    by destruct (Json.toBoolean v), (Json.unprintable v).
Qed.

(** C6 as stated fails: for the price field ["abc"] the call stores and
    returns [NaN], which is a number and not [null]. *)
Lemma unparsable_price_is_not_null : ~ unparsable_price_is_null.
Proof.
  intros H.
  pose (data := JObject [("Global Quote", JObject [("05. price", JString "abc")])]).
  specialize (H {| apiKey := Some "demo"; now := 1000;
                   fetch := fun _ => Responds data |} "AAPL" ∅ data
                eq_refl eq_refl eq_refl).
  destruct H as [H _].
  - right. exists "abc". split; reflexivity.
  - vm_compute in H. discriminate H.
Qed.

(** C6, amended.  With no fresh entry and a key configured, when the request
    succeeds the quote URL has been requested once and what is returned is
    what is stored, with [ts = now], under the upper-cased symbol.  That is
    [null] when the body has no price field or the field is the empty string;
    for any other string it is [parseFloat] of the string: the number read
    when the string starts with a decimal literal, and [NaN] (a number, not
    [null]) when it does not. *)
Theorem fetchCurrentPrice_parses_price (env : Env) (symbol : string)
    (priceCache : gmap string CacheEntry) (data : json) :
  let key := JsString.toUpperCase symbol in
  let url := quoteUrl key (default EmptyString (apiKey env)) in
  let o := fetchCurrentPrice env symbol priceCache in
  isFresh (now env) (priceCache !! key) = false ->
  keyMissing (apiKey env) = false ->
  fetch env url = Responds data ->
  requested o = [url] /\
  cacheAfter o = <[key := {| price := returned o; ts := now env |}]> priceCache /\
  (priceField data = None -> returned o = None) /\
  (forall s, priceField data = Some (JString s) ->
             returned o = if JsString.toBoolean s
                          then Some (JsString.parseFloat s) else None).
Proof.
  intros key url o Hf Hk Hd. subst o.
  rewrite fetchCurrentPrice_refresh by done. simpl. fold key url.
  split; [done|]. split; [done|].
  unfold tryQuote. rewrite Hd, quotePrice_priceField.
  split; [by intros ->|]. intros s ->. simpl. by rewrite andb_true_r.
Qed.

(** The provider quoting 189.98, then an unreadable price. *)
Lemma fetchCurrentPrice_parses_price_witness :
  let body p := JObject [("Global Quote", JObject [("05. price", JString p)])] in
  let env p := {| apiKey := Some "demo"; now := 1000;
                  fetch := fun _ => Responds (body p) |} in
  returned (fetchCurrentPrice (env "189.9800") "aapl" ∅)
    = Some (JsNumber.ofDecimal false 18998 (-2)) /\
  returned (fetchCurrentPrice (env "abc") "aapl" ∅) = Some JsNumber.NaN.
Proof.
  intros body env. split.
  - assert (H := fetchCurrentPrice_parses_price (env "189.9800") "aapl" ∅
                   (body "189.9800")).
    destruct H as (_ & _ & _ & H); [reflexivity..|].
    apply (H "189.9800"). reflexivity.
  - assert (H := fetchCurrentPrice_parses_price (env "abc") "aapl" ∅
                   (body "abc")).
    destruct H as (_ & _ & _ & H); [reflexivity..|].
    apply (H "abc"). reflexivity.
Defined.


(** ** The aggregation query *)

Section GroupByFacts.
Context {A K : Type} `{EqDecision K}.
Variable key : A -> K.

Lemma addToGroup_keys (r : A) (groups : list (K * list A)) :
  (Sql.addToGroup key r groups).*1 =
    if decide (key r ∈ groups.*1) then groups.*1 else groups.*1 ++ [key r].
Proof.
  induction groups as [|[k g] groups IH].
  - case_decide as Hin; [by apply elem_of_nil in Hin|done].
  - cbn [Sql.addToGroup]. destruct (decide (k = key r)) as [->|Hne].
    + clear IH. case_decide as Hin; [reflexivity|]. exfalso. apply Hin. apply list_elem_of_here.
    + rewrite fmap_cons, IH. cbn [fst].
      destruct (decide (key r ∈ groups.*1)) as [Hin|Hout].
      * rewrite decide_True; [reflexivity|]. rewrite fmap_cons. by apply list_elem_of_further.
      * rewrite decide_False; [reflexivity|].
        rewrite fmap_cons. intros [?|?]%elem_of_cons; cbn in *; congruence.
Qed.

Lemma addToGroup_NoDup (r : A) (groups : list (K * list A)) :
  NoDup groups.*1 -> NoDup (Sql.addToGroup key r groups).*1.
Proof.
  intros Hnd. rewrite addToGroup_keys. case_decide; [done|].
  apply NoDup_app. split; [done|]. split; [|apply NoDup_singleton].
  intros k Hk ->%list_elem_of_singleton. done.
Qed.

(** The groups after [r] has been added: those of other keys are as they
    were, and that of [key r] is [r] before what it held. *)
Lemma elem_of_addToGroup (r : A) (groups : list (K * list A)) (k : K) (g : list A) :
  NoDup groups.*1 ->
  (k, g) ∈ Sql.addToGroup key r groups <->
  (k ≠ key r /\ (k, g) ∈ groups) \/
  (k = key r /\ exists g', g = r :: g' /\
                 ((k, g') ∈ groups \/ (g' = [] /\ k ∉ groups.*1))).
Proof.
  induction groups as [|[k0 g0] groups IH]; intros Hnd.
  - cbn. rewrite list_elem_of_singleton. split.
    + intros [= -> ->]. right. split; [done|]. exists []. split; [done|].
      right. split; [done|]. apply not_elem_of_nil.
    + intros [[_ []%elem_of_nil]|[-> (g' & -> & [[]%elem_of_nil|[-> _]])]]. done.
  - rewrite fmap_cons in Hnd. apply NoDup_cons in Hnd as [Hk0 Hnd].
    specialize (IH Hnd). cbn [Sql.addToGroup fst] in *.
    assert (Hfst : forall g1, (k0, g1) ∈ groups -> False).
    { intros g1 Hin. apply Hk0. by apply (list_elem_of_fmap_2 fst) in Hin. }
    destruct (decide (k0 = key r)) as [->|Hne].
    + rewrite fmap_cons. cbn [fst]. setoid_rewrite elem_of_cons. split.
      * intros [[= -> ->]|Hin].
        { right. split; [done|]. exists g0. split; [done|]. left. by left. }
        left. split; [|by right]. intros ->. by eapply Hfst.
      * intros [[Hne [Heq|Hin]]|[-> (g' & -> & [[Heq|Hin]|[-> Hout]])]].
        -- congruence.
        -- by right.
        -- left. congruence.
        -- by eapply Hfst in Hin.
        -- exfalso. apply Hout. by left.
    + rewrite fmap_cons. cbn [fst]. setoid_rewrite elem_of_cons.
      rewrite IH. clear IH. split.
      * intros [[= -> ->]|[[Hk Hin]|[-> (g' & -> & [Hin|[-> Hout]])]]].
        -- left. split; [done|]. by left.
        -- left. split; [done|]. by right.
        -- right. split; [done|]. exists g'. split; [done|]. left. by right.
        -- right. split; [done|]. exists []. split; [done|]. right.
           split; [done|]. intros [?|?]; congruence.
      * intros [[Hk [[= -> ->]|Hin]]
               |[-> (g' & -> & [[[= Hk' ->]|Hin]|[-> Hout]])]].
        -- by left.
        -- right. left. done.
        -- congruence.
        -- right. right. split; [done|]. exists g'. split; [done|]. by left.
        -- right. right. split; [done|]. exists []. split; [done|]. right.
           split; [done|]. intros Hin. apply Hout. by right.
Qed.

Lemma groupBy_NoDup (rows : list A) : NoDup (Sql.groupBy key rows).*1.
Proof.
  induction rows as [|r rows IH]; simpl; [apply NoDup_nil_2|].
  by apply addToGroup_NoDup.
Qed.

(** [GROUP BY]: the group of a key holds the rows with that key, in table
    order, and there is a group for exactly the keys that occur. *)
Lemma elem_of_groupBy (rows : list A) (k : K) (g : list A) :
  (k, g) ∈ Sql.groupBy key rows <->
  g = filter (fun r => key r = k) rows /\ g ≠ [].
Proof.
  revert g. induction rows as [|r rows IH]; intros g.
  - cbn. split; [by intros ?%elem_of_nil|]. by intros [-> ?].
  - cbn [Sql.groupBy]. rewrite elem_of_addToGroup by apply groupBy_NoDup.
    assert (Habs : k ∉ (Sql.groupBy key rows).*1 <->
                   filter (fun r => key r = k) rows = []).
    { split.
      - intros Hout.
        destruct (filter (fun r => key r = k) rows) as [|x l] eqn:E; [done|].
        exfalso. apply Hout.
        apply (list_elem_of_fmap_2 fst _ (k, x :: l)). by apply IH.
      - intros E ([k' g'] & Hk' & Hin)%list_elem_of_fmap. cbn in Hk'. subst k'.
        apply IH in Hin as [-> Hne]. done. }
    destruct (decide (key r = k)) as [Hk|Hk].
    + rewrite filter_cons_True by done. split.
      * intros [[Hne _]|[_ (g' & -> & [Hin|[-> Hout]])]]; [congruence| |].
        -- by apply IH in Hin as [-> _].
        -- apply Habs in Hout. by rewrite Hout.
      * intros [-> _]. right. split; [done|]. eexists. split; [done|].
        destruct (filter (fun r => key r = k) rows) as [|x l] eqn:E.
        -- right. split; [done|]. by apply Habs.
        -- left. by apply IH.
    + rewrite filter_cons_False by done. rewrite <- IH. split.
      * intros [[_ Hin]|[Heq _]]; [done|congruence].
      * intros Hin. left. split; [congruence|done].
Qed.

End GroupByFacts.

Section Aggregation.
Implicit Types (trades : list Sql.Trade) (row : Sql.AggRow) (s : string).

Lemma SUM_cons {A : Type} (f : A -> Qc) (x : A) (g : list A) :
  Sql.SUM f (x :: g) = (f x + Sql.SUM f g)%Qc.
Proof. reflexivity. Qed.

Lemma SUM_Permutation {A : Type} (f : A -> Qc) (g g' : list A) :
  g ≡ₚ g' -> Sql.SUM f g = Sql.SUM f g'.
Proof.
  induction 1 as [|x g g' _ IH|x y g|g g' g'' _ IH1 _ IH2].
  - done.
  - by rewrite !SUM_cons, IH.
  - rewrite !SUM_cons. ring.
  - by rewrite IH1.
Qed.

(** The signed sum of the query is the sum of the BUY quantities less the sum
    of all the others. *)
Lemma SUM_signedQuantity (g : list Sql.Trade) :
  Sql.SUM Sql.signedQuantity g =
  (Sql.SUM Sql.quantity (filter (fun t => Sql.type t = "BUY") g)
   - Sql.SUM Sql.quantity (filter (fun t => Sql.type t ≠ "BUY") g))%Qc.
Proof.
  induction g as [|t g IH]; [done|].
  rewrite SUM_cons, IH. unfold Sql.signedQuantity.
  destruct (String.eqb_spec (Sql.type t) "BUY") as [Hb|Hb].
  - rewrite filter_cons_True by done.
    rewrite filter_cons_False by (intros H; by apply H).
    rewrite SUM_cons. ring.
  - rewrite filter_cons_False, filter_cons_True by done.
    rewrite SUM_cons. ring.
Qed.

Lemma filter_not_BUY (g : list Sql.Trade) :
  wellTyped g ->
  filter (fun t => Sql.type t ≠ "BUY") g = filter (fun t => Sql.type t = "SELL") g.
Proof.
  induction 1 as [|t g [Ht|Ht] _ IH]; [done| |].
  - rewrite !filter_cons_False; [done|by rewrite Ht|].
    intros H. by apply H.
  - rewrite !filter_cons_True; [by rewrite IH|done|by rewrite Ht].
Qed.

Lemma wellTyped_tradesOf s trades : wellTyped trades -> wellTyped (tradesOf s trades).
Proof.
  unfold wellTyped, tradesOf. rewrite !Forall_forall.
  intros H t [_ Hin]%list_elem_of_filter. by apply H.
Qed.

Lemma tradesOf_Permutation s trades trades' :
  trades ≡ₚ trades' -> tradesOf s trades ≡ₚ tradesOf s trades'.
Proof. intros H. unfold tradesOf. by rewrite H. Qed.

Lemma netQuantity_signed s trades :
  wellTyped trades ->
  Sql.SUM Sql.signedQuantity (tradesOf s trades) = netQuantity s trades.
Proof.
  intros H. rewrite SUM_signedQuantity. unfold netQuantity, sumQuantity.
  by rewrite filter_not_BUY by by apply wellTyped_tradesOf.
Qed.

Lemma netQuantity_Permutation s trades trades' :
  trades ≡ₚ trades' -> netQuantity s trades = netQuantity s trades'.
Proof.
  intros H%(tradesOf_Permutation s). unfold netQuantity, sumQuantity.
  rewrite (SUM_Permutation _ (filter _ (tradesOf s trades))
             (filter (fun t => Sql.type t = "BUY") (tradesOf s trades')))
    by (by rewrite H).
  rewrite (SUM_Permutation _ (filter _ (tradesOf s trades))
             (filter (fun t => Sql.type t = "SELL") (tradesOf s trades')))
    by (by rewrite H).
  done.
Qed.

(** The rows of the result: one for each symbol that occurs with a signed sum
    other than zero, carrying that sum and the average price of the group. *)
Lemma elem_of_aggregate (scale : Qc -> Qc -> nat) trades row :
  row ∈ Sql.aggregate scale trades <->
  exists s, tradesOf s trades ≠ [] /\
            Sql.SUM Sql.signedQuantity (tradesOf s trades) ≠ 0%Qc /\
            row = {| Sql.agg_symbol := s;
                     Sql.net_qty := Sql.SUM Sql.signedQuantity (tradesOf s trades);
                     Sql.avg_price := Sql.AVG scale Sql.price (tradesOf s trades) |}.
Proof.
  unfold Sql.aggregate. rewrite list_elem_of_fmap. split.
  - intros ([s g] & -> & [Hh [-> Hne]%elem_of_groupBy]%list_elem_of_filter).
    exists s. done.
  - intros (s & Hne & Hsum & ->). exists (s, tradesOf s trades).
    split; [done|]. apply list_elem_of_filter. split; [done|].
    by apply elem_of_groupBy.
Qed.

End Aggregation.

Lemma wellTyped_Permutation (trades trades' : list Sql.Trade) :
  trades ≡ₚ trades' -> wellTyped trades -> wellTyped trades'.
Proof. intros H. unfold wellTyped. by rewrite H. Qed.

(** A symbol has at most one row in the result. *)
Lemma aggregate_NoDup (scale : Qc -> Qc -> nat) (trades : list Sql.Trade) :
  NoDup (Sql.agg_symbol <$> Sql.aggregate scale trades).
Proof.
  unfold Sql.aggregate. rewrite <- list_fmap_compose.
  assert (Heq : forall l : list (string * list Sql.Trade),
             (Sql.agg_symbol ∘ Sql.select scale) <$> l = l.*1) by done.
  rewrite Heq.
  assert (Hsub : (filter Sql.having (Sql.groupBy Sql.symbol trades)).*1
                 `sublist_of` (Sql.groupBy Sql.symbol trades).*1)
    by apply fmap_sublist, sublist_filter.
  eapply sublist_NoDup in Hsub; [done|]. apply groupBy_NoDup.
Qed.

(** A symbol whose BUY and SELL quantities differ has a row in the result. *)
Lemma aggregate_reports_open (scale : Qc -> Qc -> nat)
    (trades : list Sql.Trade) (s : string) :
  wellTyped trades ->
  netQuantity s trades ≠ 0%Qc ->
  exists row, row ∈ Sql.aggregate scale trades /\ Sql.agg_symbol row = s /\
              Sql.net_qty row = netQuantity s trades.
Proof.
  intros Hty Hne. eexists. split; [|split]; [apply elem_of_aggregate|..].
  - exists s. split; [|split; [|reflexivity]].
    + intros Hnil. apply Hne. unfold netQuantity, sumQuantity.
      rewrite Hnil. simpl. ring.
    + by rewrite netQuantity_signed.
  - done.
  - simpl. by apply netQuantity_signed.
Qed.

(** *** C2: net quantity *)

(** C2.  For trade records of type BUY or SELL, listed in any order, the
    net quantity the query reports for a symbol is the sum of the quantities
    of its BUY records less the sum of the quantities of its SELL records. *)
Theorem aggregate_net_quantity (scale : Qc -> Qc -> nat)
    (trades trades' : list Sql.Trade) (row : Sql.AggRow) :
  wellTyped trades ->
  trades ≡ₚ trades' ->
  row ∈ Sql.aggregate scale trades' ->
  Sql.net_qty row = netQuantity (Sql.agg_symbol row) trades.
Proof.
  intros Hty Hperm (s & _ & _ & ->)%elem_of_aggregate. simpl.
  rewrite netQuantity_signed by by eapply wellTyped_Permutation.
  symmetry. by apply netQuantity_Permutation.
Qed.

(** BUY 5 @ 10, SELL 2 @ 12 of one symbol and BUY 1 @ 1 of another, read in
    another order: the first symbol is reported with 3. *)
Lemma aggregate_net_quantity_witness :
  let trades := [trade "ACME" "BUY" 5 10; trade "INIT" "BUY" 1 1;
                 trade "ACME" "SELL" 2 12] in
  let trades' := [trade "ACME" "SELL" 2 12; trade "ACME" "BUY" 5 10;
                  trade "INIT" "BUY" 1 1] in
  let row := {| Sql.agg_symbol := "ACME"; Sql.net_qty := Sql.ofZ 3;
                Sql.avg_price := Sql.ofZ 11 |} in
  row ∈ Sql.aggregate exampleScale trades' /\ Sql.ofZ 3 = netQuantity "ACME" trades.
Proof.
  intros trades trades' row.
  assert (Hin : row ∈ Sql.aggregate exampleScale trades').
  { apply elem_of_aggregate. exists "ACME". split; [discriminate|].
    split; [by vm_compute|]. unfold row. f_equal; by apply Qc_is_canon. }
  split; [exact Hin|].
  apply (aggregate_net_quantity exampleScale trades trades' row).
  - unfold wellTyped. compute_done.
  - symmetry. apply (Permutation_cons_append [_; _]).
  - exact Hin.
Defined.

(** *** C3: closed positions *)

(** C3.  For trade records of type BUY or SELL, a symbol whose BUY
    quantities and SELL quantities sum to the same has no row in the result,
    and every row of the result has a net quantity other than zero. *)
Theorem aggregate_drops_zero (scale : Qc -> Qc -> nat) (trades : list Sql.Trade) :
  wellTyped trades ->
  (forall s row, netQuantity s trades = 0%Qc ->
                 row ∈ Sql.aggregate scale trades -> Sql.agg_symbol row ≠ s) /\
  (forall row, row ∈ Sql.aggregate scale trades ->
               Sql.net_qty row ≠ 0%Qc /\
               netQuantity (Sql.agg_symbol row) trades ≠ 0%Qc).
Proof.
  intros Hty. split.
  - intros s row Hz (s' & _ & Hne & ->)%elem_of_aggregate. simpl. intros ->.
    by rewrite netQuantity_signed in Hne.
  - intros row (s & _ & Hne & ->)%elem_of_aggregate. simpl.
    split; [done|]. by rewrite netQuantity_signed in Hne.
Qed.

(** BUY 10 @ 5 then SELL 10 @ 6: the symbol is not reported. *)
Lemma aggregate_drops_zero_witness :
  let trades := [trade "ACME" "BUY" 10 5; trade "ACME" "SELL" 10 6] in
  (forall row, row ∈ Sql.aggregate exampleScale trades -> Sql.agg_symbol row ≠ "ACME") /\
  Sql.aggregate exampleScale trades = [].
Proof.
  intros trades. split; [|reflexivity].
  intros row. apply (aggregate_drops_zero exampleScale trades).
  - unfold wellTyped. compute_done.
  - by apply Qc_is_canon.
Defined.

(** *** C4: average price *)

(** The integer nearest to a rational, and a value rounded to [n]
    decimals. *)
Lemma nearest_comp (x y : Q) : (x == y)%Q -> Sql.nearest x = Sql.nearest y.
Proof.
  intros H. unfold Sql.nearest.
  rewrite (Qleb_comp 0%Q 0%Q (Qeq_refl 0%Q) x y H).
  destruct (Qle_bool 0 y); [|f_equal]; apply Qfloor_comp; by rewrite H.
Qed.

Lemma nearest_inject_Z (z : Z) : Sql.nearest (inject_Z z) = z.
Proof.
  unfold Sql.nearest.
  destruct (Qle_bool 0 (inject_Z z)).
  - unfold Qfloor, Qplus, inject_Z. simpl. symmetry. apply Z.div_unique with 1; lia.
  - unfold Qfloor, Qplus, Qopp, inject_Z. simpl.
    replace ((- z * 2 + 1 * 1) / Z.pos (1 * 2)) with (- z); [lia|].
    apply Z.div_unique with 1; lia.
Qed.

Lemma nearest_bounds (x : Q) :
  (inject_Z (Sql.nearest x) - x <= 1 # 2)%Q /\ (x - inject_Z (Sql.nearest x) <= 1 # 2)%Q.
Proof.
  unfold Sql.nearest. destruct (Qle_bool 0 x).
  - pose proof (Qfloor_le (x + (1 # 2))) as H1.
    pose proof (Qlt_floor (x + (1 # 2))) as H2.
    rewrite inject_Z_plus in H2. change (inject_Z 1) with 1%Q in H2.
    set (r := inject_Z (Qfloor _)) in *. clearbody r. split; lra.
  - pose proof (Qfloor_le (- x + (1 # 2))) as H1.
    pose proof (Qlt_floor (- x + (1 # 2))) as H2.
    rewrite inject_Z_plus in H2. change (inject_Z 1) with 1%Q in H2.
    rewrite inject_Z_opp.
    set (r := inject_Z (Qfloor _)) in *. clearbody r. split; lra.
Qed.

Lemma nearest_mono (x y : Q) : (x <= y)%Q -> Sql.nearest x <= Sql.nearest y.
Proof.
  intros Hxy. unfold Sql.nearest.
  destruct (Qle_bool 0 x) eqn:Hx, (Qle_bool 0 y) eqn:Hy.
  - apply Qfloor_resp_le. lra.
  - apply Qle_bool_iff in Hx.
    assert (~ (0 <= y)%Q) by (rewrite <- Qle_bool_iff; congruence). lra.
  - assert (~ (0 <= x)%Q) by (rewrite <- Qle_bool_iff; congruence).
    apply Qle_bool_iff in Hy.
    assert (0 <= Qfloor (- x + (1 # 2))).
    { change 0 with (Qfloor 0). apply Qfloor_resp_le. lra. }
    assert (0 <= Qfloor (y + (1 # 2))).
    { change 0 with (Qfloor 0). apply Qfloor_resp_le. lra. }
    lia.
  - assert (Qfloor (- y + (1 # 2)) <= Qfloor (- x + (1 # 2))); [|lia].
    apply Qfloor_resp_le. lra.
Qed.

Lemma tenTo_pos (n : nat) : Z.pos (Sql.tenTo n) = 10 ^ Z.of_nat n.
Proof. unfold Sql.tenTo. apply Z2Pos.id. apply Z.pow_pos_nonneg; lia. Qed.

Lemma decimal_scaled (n : nat) (z : Z) :
  (Sql.decimal n z * inject_Z (Z.pos (Sql.tenTo n)) == inject_Z z)%Q.
Proof.
  unfold Sql.decimal. cbn [this Q2Qc]. rewrite Qred_correct.
  unfold Qeq, Qmult, inject_Z. simpl. lia.
Qed.

Lemma roundAt_decimal (n : nat) (z : Z) :
  Sql.roundAt n (Sql.decimal n z) = Sql.decimal n z.
Proof.
  unfold Sql.roundAt. f_equal.
  rewrite (nearest_comp _ _ (decimal_scaled n z)). apply nearest_inject_Z.
Qed.

Lemma decimal_mono (n : nat) (z z' : Z) :
  z <= z' -> (Sql.decimal n z <= Sql.decimal n z')%Qc.
Proof.
  intros H. unfold Qcle, Sql.decimal. cbn [this Q2Qc]. rewrite !Qred_correct.
  unfold Qle. simpl. nia.
Qed.

Lemma roundAt_mono (n : nat) (q q' : Qc) :
  (q <= q')%Qc -> (Sql.roundAt n q <= Sql.roundAt n q')%Qc.
Proof.
  intros H. apply decimal_mono, nearest_mono.
  apply Qmult_le_compat_r; [exact H|]. done.
Qed.

Lemma roundAt_near (n : nat) (q : Qc) :
  (Sql.roundAt n q - q <= halfUnit n)%Qc /\ (q - Sql.roundAt n q <= halfUnit n)%Qc.
Proof.
  unfold Qcle, Qcminus, Qcplus, Qcopp, Sql.roundAt, Sql.decimal, halfUnit.
  cbn [this Q2Qc]. rewrite !Qred_correct.
  set (t := Sql.tenTo n).
  destruct (nearest_bounds (q * inject_Z (Z.pos t))) as [H1 H2].
  set (r := Sql.nearest _) in *. clearbody r.
  destruct q as [[a b] Hq]. cbn [this] in *. clear Hq.
  unfold Qle, Qminus, Qplus, Qopp, Qmult, inject_Z in *. simpl in *.
  split; nia.
Qed.

Lemma tenTo_mod3 (n : nat) : Z.pos (Sql.tenTo n) mod 3 = 1.
Proof.
  rewrite tenTo_pos. induction n as [|n IH]; [done|].
  rewrite Nat2Z.inj_succ, Z.pow_succ_r by lia.
  rewrite Z.mul_mod, IH by lia. done.
Qed.

Lemma decimal_not_third (n : nat) (z : Z) : Sql.decimal n z <> Q2Qc (4 # 3).
Proof.
  unfold Sql.decimal. rewrite Q2Qc_eq_iff. unfold Qeq. simpl.
  intros H. pose proof (tenTo_mod3 n) as Hm.
  assert (Hz : (z * 3) mod 3 = 0) by (apply Z.mod_mul; lia).
  rewrite H in Hz. rewrite Z.mul_mod in Hz by lia. rewrite Hm in Hz. done.
Qed.

Lemma meanPrice_AVG (scale : Qc -> Qc -> nat) (s : string) (trades : list Sql.Trade) :
  Sql.AVG scale Sql.price (tradesOf s trades) =
  Sql.roundAt (scale (Sql.SUM Sql.price (tradesOf s trades))
                     (Sql.COUNT (tradesOf s trades)))
              (meanPrice s trades).
Proof. reflexivity. Qed.

(** C4 as stated fails, whatever number of decimals the engine gives its
    quotients: three records of one symbol at the prices 1, 1 and 2 have the
    mean price 4/3, which no number of decimals holds (PostgreSQL reports
    1.3333333333333333). *)
Lemma reported_average_is_not_mean : ~ exists scale, reported_average_is_mean scale.
Proof.
  intros [scale H].
  pose (trades := [trade "ACME" "BUY" 1 1; trade "ACME" "BUY" 1 1;
                   trade "ACME" "BUY" 1 2]).
  specialize (H trades (Sql.select scale ("ACME", trades))).
  assert (Hmean : meanPrice "ACME" trades = Q2Qc (4 # 3)) by by apply Qc_is_canon.
  simpl in H. rewrite Hmean in H.
  eapply decimal_not_third. apply H.
  apply elem_of_aggregate. exists "ACME". split; [discriminate|].
  split; [by vm_compute|reflexivity].
Qed.

(** C4, amended.  The average price the query reports for a symbol is the
    arithmetic mean of the price over all the records of that symbol,
    whatever their type, rounded to the number of decimals the engine gives
    the quotient, a tie away from zero.  It is the mean itself when the mean
    has no more decimals than that, and is within half a unit of the last
    decimal of the mean otherwise. *)
Theorem aggregate_avg_price (scale : Qc -> Qc -> nat) (trades : list Sql.Trade)
    (row : Sql.AggRow) :
  row ∈ Sql.aggregate scale trades ->
  let s := Sql.agg_symbol row in
  let mean := meanPrice s trades in
  let n := scale (Sql.SUM Sql.price (tradesOf s trades))
                 (Sql.COUNT (tradesOf s trades)) in
  Sql.avg_price row = Sql.roundAt n mean /\
  (exists z, Sql.avg_price row = Sql.decimal n z) /\
  (forall z, mean = Sql.decimal n z -> Sql.avg_price row = mean) /\
  (Sql.avg_price row - mean <= halfUnit n)%Qc /\
  (mean - Sql.avg_price row <= halfUnit n)%Qc.
Proof.
  intros (s & _ & _ & ->)%elem_of_aggregate s0 mean n. subst s0.
  cbn [Sql.agg_symbol Sql.avg_price] in *. rewrite meanPrice_AVG. fold mean n.
  split; [done|]. split; [by eexists|]. split; [|apply roundAt_near].
  intros z ->. apply roundAt_decimal.
Qed.

(** BUY 5 @ 10 and SELL 2 @ 12: the average price is 11, the mean.  Three
    purchases at 1, 1 and 2, with sixteen decimals: the average price is
    1.3333333333333333. *)
Lemma aggregate_avg_price_witness :
  let trades := [trade "ACME" "BUY" 5 10; trade "ACME" "SELL" 2 12] in
  let row := {| Sql.agg_symbol := "ACME"; Sql.net_qty := Sql.ofZ 3;
                Sql.avg_price := Sql.ofZ 11 |} in
  let trades' := [trade "ACME" "BUY" 1 1; trade "ACME" "BUY" 1 1;
                  trade "ACME" "BUY" 1 2] in
  let row' := {| Sql.agg_symbol := "ACME"; Sql.net_qty := Sql.ofZ 3;
                 Sql.avg_price := Sql.decimal 16 13333333333333333 |} in
  (row ∈ Sql.aggregate exampleScale trades /\
   Sql.ofZ 11 = meanPrice "ACME" trades) /\
  (row' ∈ Sql.aggregate exampleScale trades' /\
   Sql.decimal 16 13333333333333333 = Sql.roundAt 16 (meanPrice "ACME" trades')).
Proof.
  intros trades row trades' row'.
  assert (Hin : row ∈ Sql.aggregate exampleScale trades).
  { apply elem_of_aggregate. exists "ACME". split; [discriminate|].
    split; [by vm_compute|]. unfold row. f_equal; apply Qc_is_canon; by vm_compute. }
  assert (Hin' : row' ∈ Sql.aggregate exampleScale trades').
  { apply elem_of_aggregate. exists "ACME". split; [discriminate|].
    split; [by vm_compute|]. unfold row'. f_equal; apply Qc_is_canon; by vm_compute. }
  split; (split; [assumption|]).
  - destruct (aggregate_avg_price exampleScale trades row Hin) as (_ & _ & H & _).
    apply (H (11 * 10 ^ 16)). apply Qc_is_canon. by vm_compute.
  - by destruct (aggregate_avg_price exampleScale trades' row' Hin') as (H & _).
Defined.

(** ** The portfolio view *)

(** The digits [toFixed] prints are those of the integer nearest to
    [x * 10 ^ f], the larger of the two at a tie: for a number [m * 2 ^ e] with
    [e < 0], [n = fixedDigits f m e] has [- 1/2 < n - x * 10 ^ f <= 1/2]. *)
Lemma fixedDigits_nearest (f : Z) (m : positive) (e : Z) :
  e < 0 -> 0 <= f ->
  let n := JsNumber.fixedDigits f m e in
  - 2 ^ (- e) < 2 * (n * 2 ^ (- e) - Z.pos m * 10 ^ f) <= 2 ^ (- e).
Proof.
  intros He Hf n. subst n. unfold JsNumber.fixedDigits.
  rewrite (proj2 (Z.leb_gt 0 e)) by lia.
  assert (Hd : 0 < 2 ^ (- e)) by (apply Z.pow_pos_nonneg; lia).
  set (d := 2 ^ (- e)) in *. set (v := Z.pos m * 10 ^ f).
  pose proof (Z.div_mod (2 * v + d) (2 * d)) as Hdm.
  pose proof (Z.mod_pos_bound (2 * v + d) (2 * d)) as Hb.
  nia.
Qed.

(** A number with a non-negative exponent is an integer, and is printed as
    it is. *)
Lemma fixedDigits_exact (f : Z) (m : positive) (e : Z) :
  0 <= e -> JsNumber.fixedDigits f m e = Z.pos m * 2 ^ e * 10 ^ f.
Proof.
  intros He. unfold JsNumber.fixedDigits.
  rewrite (proj2 (Z.leb_le 0 e)) by lia. ring.
Qed.

(** Below [10 ^ 21], [toFixed4] is the number nearest to the four-decimal
    fraction whose digits are [fixedDigits 4]. *)
Lemma toFixed4_finite (s : bool) (m : positive) (e : Z) :
  JsNumber.atLeast1e21 m e = false ->
  JsNumber.toFixed4 (S754_finite s m e) =
    JsNumber.ofDecimal s (Z.to_N (JsNumber.fixedDigits 4 m e)) (-4).
Proof. intros H. unfold JsNumber.toFixed4. by rewrite H. Qed.

(** Every position the loop adds is the one computed from a row and from
    what [fetchCurrentPrice] returned for it. *)
Lemma elem_of_pricePositions (envs : nat -> Env) (rows : list Row) :
  forall (k : nat) (acc : Loop) (p : Position),
    p ∈ portfolio (pricePositions envs k rows acc) ->
    p ∈ portfolio acc \/
    exists r current, r ∈ rows /\ p = position r current.
Proof.
  induction rows as [|r rows IH]; intros k acc p; simpl; [by left|].
  intros [Hin|(r' & c & Hr' & ->)]%IH; simpl in *.
  - apply elem_of_app in Hin as [Hin|Heq%list_elem_of_singleton]; [by left|].
    subst p. right. eexists _, _. split; [|done]. by left.
  - right. exists r', c. split; [by right|done].
Qed.

Lemma elem_of_buildView (envs : nat -> Env) (rows : list Row)
    (priceCache : gmap string CacheEntry) (p : Position) :
  p ∈ view_portfolio (buildView envs rows priceCache) ->
  exists r current, r ∈ rows /\ p = position r current.
Proof.
  unfold buildView. simpl.
  intros [Hin|H]%elem_of_pricePositions; [|done]. by apply elem_of_nil in Hin.
Qed.

(** The loop adds one position per row, in the order of the rows, and makes
    at most one request per row. *)
Lemma pricePositions_rows (envs : nat -> Env) (rows : list Row) :
  forall (k : nat) (acc : Loop),
    let l := pricePositions envs k rows acc in
    symbol <$> portfolio l = (symbol <$> portfolio acc) ++ (row_symbol <$> rows) /\
    (length (requests l) <= length (requests acc) + length rows)%nat.
Proof.
  induction rows as [|r rows IH]; intros k acc; simpl.
  - rewrite app_nil_r. split; [done|lia].
  - destruct (IH (S k)
        {| portfolio := portfolio acc ++
             [position r (returned (fetchCurrentPrice (envs k) (row_symbol r) (cache acc)))];
           cache := cacheAfter (fetchCurrentPrice (envs k) (row_symbol r) (cache acc));
           requests := requests acc ++
             requested (fetchCurrentPrice (envs k) (row_symbol r) (cache acc)) |})
      as [-> Hle].
    simpl in *. rewrite fmap_app, <- app_assoc. split; [done|].
    rewrite length_app in Hle.
    pose proof (requested_length (envs k) (row_symbol r) (cache acc)). lia.
Qed.

Lemma buildView_rows (envs : nat -> Env) (rows : list Row)
    (priceCache : gmap string CacheEntry) :
  let v := buildView envs rows priceCache in
  symbol <$> view_portfolio v = row_symbol <$> rows /\
  (length (view_requests v) <= length rows)%nat.
Proof.
  apply (pricePositions_rows envs rows 0
           {| portfolio := []; cache := priceCache; requests := [] |}).
Qed.

(** The positions of the view are the symbols the query reports, in its
    order: none of them is closed. *)
Lemma getPortfolio_symbols (scale : Qc -> Qc -> nat)
    (text : Qc -> string) (envs : nat -> Env)
    (trades : list Sql.Trade) (priceCache : gmap string CacheEntry) :
  symbol <$> view_portfolio (getPortfolio text scale envs trades priceCache) =
  Sql.agg_symbol <$> Sql.aggregate scale trades.
Proof.
  unfold getPortfolio.
  destruct (buildView_rows envs (rowOf text <$> Sql.aggregate scale trades) priceCache)
    as [-> _].
  by rewrite <- list_fmap_compose.
Qed.

Lemma getPortfolio_open (scale : Qc -> Qc -> nat)
    (text : Qc -> string) (envs : nat -> Env)
    (trades : list Sql.Trade) (priceCache : gmap string CacheEntry) (p : Position) :
  wellTyped trades ->
  p ∈ view_portfolio (getPortfolio text scale envs trades priceCache) ->
  netQuantity (symbol p) trades ≠ 0%Qc.
Proof.
  intros Hty Hp. apply (list_elem_of_fmap_2 symbol) in Hp.
  rewrite getPortfolio_symbols in Hp.
  apply list_elem_of_fmap in Hp as (row & -> & (s & _ & Hne & ->)%elem_of_aggregate).
  simpl. by rewrite netQuantity_signed in Hne.
Qed.

(** *** C7: market value *)

(** C7.  In every position of the view, [marketValue] is [null] exactly when
    [currentPrice] is [null], and otherwise it is the product
    [netQty * currentPrice] rounded to four decimals,
    [Number((netQty * currentPrice).toFixed(4))]. *)
Theorem marketValue_rounded (envs : nat -> Env) (rows : list Row)
    (priceCache : gmap string CacheEntry) (p : Position) :
  p ∈ view_portfolio (buildView envs rows priceCache) ->
  (marketValue p = None <-> currentPrice p = None) /\
  (forall c, currentPrice p = Some c ->
             marketValue p = Some (JsNumber.toFixed4 (JsNumber.mul (netQty p) c))).
Proof.
  intros (r & current & _ & ->)%elem_of_buildView.
  destruct current as [c|]; simpl; split; try done.
  by intros c' [= ->].
Qed.

(** Two shares quoted at 1.23456 are worth 2.4691. *)
Lemma marketValue_rounded_witness :
  let envs := fun _ : nat =>
    {| apiKey := Some "demo"; now := 1000;
       fetch := fun _ => Responds (quoteOf "1.23456") |} in
  let rows := [{| row_symbol := "ACME"; row_net_qty := JString "2";
                  row_avg_price := JString "1.2" |}] in
  let p := {| symbol := "ACME";
              netQty := JsNumber.ofZ 2;
              avgPrice := Some (JsNumber.ofDecimal false 12 (-1));
              currentPrice := Some (JsNumber.ofDecimal false 123456 (-5));
              marketValue := Some (JsNumber.ofDecimal false 24691 (-4)) |} in
  view_portfolio (buildView envs rows ∅) = [p] /\
  (marketValue p = None <-> currentPrice p = None) /\
  (forall c, currentPrice p = Some c ->
             marketValue p = Some (JsNumber.toFixed4 (JsNumber.mul (netQty p) c))).
Proof.
  intros envs rows p.
  assert (Hv : view_portfolio (buildView envs rows ∅) = [p]) by by vm_compute.
  split; [exact Hv|].
  apply (marketValue_rounded envs rows ∅ p). rewrite Hv. apply list_elem_of_here.
Defined.

(** *** C8: total value *)

(** C8 as stated fails: when the provider's price reads as [NaN] the market
    value of the row is [NaN], not [null]; it counts as [0] in [totalValue],
    whereas the sum of the market values is [NaN]. *)
Lemma total_is_not_sum_of_market_values : ~ total_is_sum_of_market_values.
Proof.
  intros H.
  specialize (H (fun _ => {| apiKey := Some "demo"; now := 1000;
                             fetch := fun _ => Responds (quoteOf "abc") |})
                [{| row_symbol := "ACME"; row_net_qty := JString "2";
                    row_avg_price := JString "1.2" |}] ∅).
  vm_compute in H. discriminate H.
Qed.

Lemma orZero_contribution (v : option JsNumber.number) :
  orZero v = contribution v.
Proof. by destruct v as [[]|]. Qed.

Lemma fold_orZero_contribution (l : list Position) (acc : JsNumber.number) :
  fold_left (fun acc p => JsNumber.add acc (orZero (marketValue p))) l acc =
  fold_left (fun acc p => JsNumber.add acc (contribution (marketValue p))) l acc.
Proof.
  revert acc. induction l as [|p l IH]; intros acc; simpl; [done|].
  by rewrite orZero_contribution, IH.
Qed.

(** C8, amended.  [totalValue] is the sum, from [0] and in the order of the
    positions, of the market values, where a position whose market value is
    [null] adds exactly [0] (as does one whose market value is [NaN] or a
    zero); the position itself keeps its [null] market value, which it has
    whenever its current price is [null]. *)
Theorem totalValue_sum (envs : nat -> Env) (rows : list Row)
    (priceCache : gmap string CacheEntry) :
  let v := buildView envs rows priceCache in
  view_totalValue v =
    fold_left (fun acc p => JsNumber.add acc (contribution (marketValue p)))
      (view_portfolio v) JsNumber.zero /\
  (forall p, p ∈ view_portfolio v -> currentPrice p = None ->
             marketValue p = None /\
             contribution (marketValue p) = JsNumber.zero).
Proof.
  intros v. split.
  - unfold v, buildView, totalValue. simpl. apply fold_orZero_contribution.
  - intros p (r & current & _ & ->)%elem_of_buildView. simpl.
    by intros ->.
Qed.

(** Two positions: ten shares quoted at 15, and three shares of a symbol the
    provider fails on.  The second keeps a [null] market value and the total
    is 150. *)
Lemma totalValue_sum_witness :
  let envs := fun _ : nat =>
    {| apiKey := Some "demo"; now := 1000;
       fetch := fun url =>
         if String.eqb url (quoteUrl "ACME" "demo")
         then Responds (quoteOf "15.00") else Rejects |} in
  let rows := [{| row_symbol := "ACME"; row_net_qty := JString "10";
                  row_avg_price := JString "12.5" |};
               {| row_symbol := "INIT"; row_net_qty := JString "3";
                  row_avg_price := JNull |}] in
  let v := buildView envs rows ∅ in
  marketValue <$> view_portfolio v = [Some (JsNumber.ofZ 150); None] /\
  view_totalValue v = JsNumber.ofZ 150 /\
  (forall p, p ∈ view_portfolio v -> currentPrice p = None ->
             marketValue p = None /\
             contribution (marketValue p) = JsNumber.zero).
Proof.
  intros envs rows v.
  split; [by vm_compute|].
  destruct (totalValue_sum envs rows ∅) as [Ht Hp].
  split; [|exact Hp].
  fold v in Ht. rewrite Ht. by vm_compute.
Defined.

(** * Further properties *)

(** ** More on the price cache *)

(** X1.  What a call that found no fresh entry leaves is served for a TTL:
    a second call for the same upper-cased symbol made less than 60000 ms
    later returns the same value ([null] after a failure or without a key
    alike), requests nothing and leaves the cache as it is, whatever the
    configuration and the provider have become. *)
Theorem fetchCurrentPrice_served_for_ttl (env1 env2 : Env) (symbol1 symbol2 : string)
    (priceCache : gmap string CacheEntry) :
  JsString.toUpperCase symbol1 = JsString.toUpperCase symbol2 ->
  isFresh (now env1) (priceCache !! JsString.toUpperCase symbol1) = false ->
  now env2 - now env1 < CACHE_TTL_MS ->
  let o1 := fetchCurrentPrice env1 symbol1 priceCache in
  fetchCurrentPrice env2 symbol2 (cacheAfter o1) =
    {| returned := returned o1; cacheAfter := cacheAfter o1; requested := [] |}.
Proof.
  intros Hkey Hstale Hwin o1. subst o1.
  destruct (fetchCurrentPrice_cases env1 symbol1 priceCache)
    as [(Hf & _)|(_ & Hc & _)]; [congruence|].
  rewrite Hc. rewrite fetchCurrentPrice_hit; rewrite <- Hkey.
  - by rewrite store_lookup.
  - rewrite isFresh_store. by apply Z.ltb_lt.
Qed.

(** A request that is rejected at time 0; the provider is back and quotes
    189.98 at time 59999, and the call still returns [null]. *)
Lemma fetchCurrentPrice_served_for_ttl_witness :
  let env1 := {| apiKey := Some "demo"; now := 0; fetch := fun _ => Rejects |} in
  let env2 := {| apiKey := Some "demo"; now := 59999;
                 fetch := fun _ => Responds (quoteOf "189.98") |} in
  let o1 := fetchCurrentPrice env1 "aapl" ∅ in
  returned o1 = None /\
  fetchCurrentPrice env2 "AAPL" (cacheAfter o1) =
    {| returned := returned o1; cacheAfter := cacheAfter o1; requested := [] |}.
Proof.
  intros env1 env2 o1. split; [reflexivity|].
  apply (fetchCurrentPrice_served_for_ttl env1 env2 "aapl" "AAPL" ∅).
  - reflexivity.
  - reflexivity.
  - vm_compute. reflexivity.
Defined.

(** The keys of the cache after a call. *)
Lemma cacheAfter_dom (env : Env) (symbol : string)
    (priceCache : gmap string CacheEntry) :
  dom (cacheAfter (fetchCurrentPrice env symbol priceCache)) =
    dom priceCache ∪ {[JsString.toUpperCase symbol]}.
Proof.
  destruct (fetchCurrentPrice_cases env symbol priceCache)
    as [(Hf & _ & -> & _)|(_ & -> & _)].
  - destruct (priceCache !! JsString.toUpperCase symbol) as [e|] eqn:He;
      [|discriminate].
    symmetry. rewrite union_comm_L.
    apply subseteq_union_1_L, singleton_subseteq_l, elem_of_dom.
    by exists e.
  - unfold store. rewrite dom_insert_L. apply union_comm_L.
Qed.

(** X2.  The cache never loses an entry and gains at most one per call, that
    of the upper-cased symbol: its keys after a call are those before and
    that one, the entries under all other keys are as they were, and it
    holds at most one entry more. *)
Theorem fetchCurrentPrice_dom (env : Env) (symbol : string)
    (priceCache : gmap string CacheEntry) :
  let o := fetchCurrentPrice env symbol priceCache in
  dom (cacheAfter o) = dom priceCache ∪ {[JsString.toUpperCase symbol]} /\
  (forall k, k ≠ JsString.toUpperCase symbol ->
             cacheAfter o !! k = priceCache !! k) /\
  (size priceCache <= size (cacheAfter o) <= S (size priceCache))%nat.
Proof.
  intros o. subst o. split; [apply cacheAfter_dom|]. split.
  - intros k Hk.
    destruct (fetchCurrentPrice_cases env symbol priceCache)
      as [(_ & _ & -> & _)|(_ & -> & _)]; [done|]. by apply store_lookup_ne.
  - rewrite <- !size_dom, cacheAfter_dom.
    split; [apply subseteq_size, union_subseteq_l|].
    rewrite size_union_alt.
    pose proof (subseteq_size
                  ({[JsString.toUpperCase symbol]} ∖ dom priceCache)
                  ({[JsString.toUpperCase symbol]} : gset string)) as Hle.
    rewrite size_singleton in Hle.
    specialize (Hle (subseteq_difference_l _ _ _ (reflexivity _))). lia.
Qed.

(** ** More on the view *)

(** The loop touches no entry but those of its rows. *)
Lemma pricePositions_frame (envs : nat -> Env) (rows : list Row) :
  forall (k : nat) (acc : Loop) (key : string),
    key ∉ rowKey <$> rows ->
    cache (pricePositions envs k rows acc) !! key = cache acc !! key.
Proof.
  induction rows as [|r rows IH]; intros k acc key Hkey; simpl; [done|].
  rewrite fmap_cons, not_elem_of_cons in Hkey. destruct Hkey as [Hr Hrows].
  rewrite IH by done. simpl.
  destruct (fetchCurrentPrice_cases (envs k) (row_symbol r) (cache acc))
    as [(_ & _ & -> & _)|(_ & -> & _)]; [done|].
  by apply store_lookup_ne.
Qed.

(** What the loop adds to [portfolio], [requests] and the keys of the
    cache. *)
Lemma pricePositions_spec (envs : nat -> Env) (rows : list Row) :
  forall (k : nat) (acc : Loop),
    let l := pricePositions envs k rows acc in
    (exists ps, portfolio l = portfolio acc ++ ps /\
                Forall2 (fun r p => exists c, p = position r c) rows ps) /\
    dom (cache l) = dom (cache acc) ∪ list_to_set (rowKey <$> rows).
Proof.
  induction rows as [|r rows IH]; intros k acc; simpl.
  - split; [exists []; by rewrite app_nil_r|].
    by rewrite union_empty_r_L.
  - match goal with
    | |- context [pricePositions envs (S k) rows ?a] =>
        destruct (IH (S k) a) as [(ps & -> & Hps) ->]
    end.
    simpl. split.
    + eexists (_ :: ps). rewrite <- app_assoc. split; [done|].
      constructor; [by eexists|done].
    + rewrite cacheAfter_dom. unfold rowKey at 2.
      by rewrite <- (assoc_L (∪)).
Qed.

(** X3.  The view has one position per row, in the order of the rows, with
    the row's symbol and its two numbers read by [parseFloat]; building it
    makes at most one request per row and leaves an entry in the cache for
    the upper-cased symbol of every row, beside those that were there. *)
Theorem buildView_positions (envs : nat -> Env) (rows : list Row)
    (priceCache : gmap string CacheEntry) :
  let v := buildView envs rows priceCache in
  Forall2 (fun r p =>
             symbol p = row_symbol r /\
             netQty p = Json.parseFloat (row_net_qty r) /\
             avgPrice p = match row_avg_price r with
                          | JNull => None
                          | a => Some (Json.parseFloat a)
                          end)
          rows (view_portfolio v) /\
  (length (view_requests v) <= length rows)%nat /\
  dom (view_cache v) = dom priceCache ∪ list_to_set (rowKey <$> rows).
Proof.
  intros v. subst v. unfold buildView. simpl.
  destruct (pricePositions_spec envs rows 0
              {| portfolio := []; cache := priceCache; requests := [] |})
    as [(ps & -> & Hps) ->].
  simpl. split; [|split; [|done]].
  - eapply Forall2_impl; [exact Hps|]. by intros r p [c ->].
  - apply (pricePositions_rows envs rows 0
             {| portfolio := []; cache := priceCache; requests := [] |}).
Qed.

(** A loop run while the entry of every row is fresh when its turn comes. *)
Lemma pricePositions_served (envs : nat -> Env) (rows : list Row)
    (priceCache : gmap string CacheEntry) :
  forall (k : nat) (ps : list Position) (rs : list string),
    (forall i r, rows !! i = Some r ->
                 isFresh (now (envs (k + i)%nat)) (priceCache !! rowKey r) = true) ->
    pricePositions envs k rows
      {| portfolio := ps; cache := priceCache; requests := rs |} =
    {| portfolio :=
         ps ++ ((fun r => position r (priceCache !! rowKey r ≫= price)) <$> rows);
       cache := priceCache;
       requests := rs |}.
Proof.
  induction rows as [|r rows IH]; intros k ps rs Hfresh; simpl.
  - by rewrite app_nil_r.
  - rewrite fetchCurrentPrice_hit.
    2:{ specialize (Hfresh 0%nat r eq_refl). by rewrite Nat.add_0_r in Hfresh. }
    simpl. rewrite IH.
    2:{ intros i r' Hr'. specialize (Hfresh (S i) r' Hr').
        by rewrite Nat.add_succ_r in Hfresh. }
    by rewrite app_nil_r, <- app_assoc.
Qed.

(** X4.  When the cache holds, for every row, an entry that is fresh at the
    time the row is priced, the view is built from the cache alone: no
    request is made, the cache is left as it is, and every position carries
    the price of its entry. *)
Theorem buildView_served (envs : nat -> Env) (rows : list Row)
    (priceCache : gmap string CacheEntry) :
  (forall k r, rows !! k = Some r ->
               isFresh (now (envs k)) (priceCache !! rowKey r) = true) ->
  let v := buildView envs rows priceCache in
  view_requests v = [] /\
  view_cache v = priceCache /\
  view_portfolio v =
    (fun r => position r (priceCache !! rowKey r ≫= price)) <$> rows.
Proof.
  intros Hfresh v. subst v. unfold buildView.
  by rewrite pricePositions_served.
Qed.

(** Two entries written at 1000 and 2000, read at 60999 and 61000. *)
Lemma buildView_served_witness :
  let priceCache : gmap string CacheEntry :=
    {[ "ACME" := {| price := Some (JsNumber.ofZ 15); ts := 1000 |};
       "INIT" := {| price := None; ts := 2000 |} ]} in
  let envs := fun k : nat =>
    {| apiKey := Some "demo"; now := 60999 + Z.of_nat k;
       fetch := fun _ => Rejects |} in
  let rows := [{| row_symbol := "acme"; row_net_qty := JString "10";
                  row_avg_price := JString "12.5" |};
               {| row_symbol := "INIT"; row_net_qty := JString "3";
                  row_avg_price := JNull |}] in
  let v := buildView envs rows priceCache in
  view_requests v = [] /\
  view_cache v = priceCache /\
  view_portfolio v =
    (fun r => position r (priceCache !! rowKey r ≫= price)) <$> rows.
Proof.
  intros priceCache envs rows.
  apply (buildView_served envs rows priceCache).
  intros [|[|k]] r Hr; [| |discriminate Hr].
  - injection Hr as <-. reflexivity.
  - injection Hr as <-. reflexivity.
Defined.

(** The value a call returns is the price of the entry it leaves. *)
Lemma returned_cacheAfter (env : Env) (symbol : string)
    (priceCache : gmap string CacheEntry) :
  cacheAfter (fetchCurrentPrice env symbol priceCache)
    !! JsString.toUpperCase symbol ≫= price =
  returned (fetchCurrentPrice env symbol priceCache).
Proof.
  destruct (fetchCurrentPrice_cases env symbol priceCache)
    as [(_ & -> & -> & _)|(_ & -> & _)]; [done|].
  by rewrite store_lookup.
Qed.

(** With rows of distinct upper-cased symbols, every position carries the
    price of the entry the loop leaves for it. *)
Lemma pricePositions_cached (envs : nat -> Env) (rows : list Row) :
  NoDup (rowKey <$> rows) ->
  forall (k : nat) (acc : Loop),
    let l := pricePositions envs k rows acc in
    portfolio l =
      portfolio acc ++
      ((fun r => position r (cache l !! rowKey r ≫= price)) <$> rows).
Proof.
  induction rows as [|r rows IH]; intros Hnd k acc; simpl.
  - by rewrite app_nil_r.
  - rewrite fmap_cons in Hnd. apply NoDup_cons in Hnd as [Hr Hnd].
    rewrite IH by done. simpl. rewrite <- app_assoc. simpl.
    rewrite pricePositions_frame by done. simpl.
    do 2 f_equal. f_equal. symmetry. apply returned_cacheAfter.
Qed.

(** X5.  Building the view twice gives the same view: for rows of distinct
    upper-cased symbols, a second build that finds the entries left by the
    first still fresh returns the same positions and the same total, makes
    no request and leaves the cache as it is. *)
Theorem buildView_idempotent (envs1 envs2 : nat -> Env) (rows : list Row)
    (priceCache : gmap string CacheEntry) :
  NoDup (rowKey <$> rows) ->
  let v1 := buildView envs1 rows priceCache in
  (forall k r, rows !! k = Some r ->
               isFresh (now (envs2 k)) (view_cache v1 !! rowKey r) = true) ->
  let v2 := buildView envs2 rows (view_cache v1) in
  view_portfolio v2 = view_portfolio v1 /\
  view_totalValue v2 = view_totalValue v1 /\
  view_requests v2 = [] /\
  view_cache v2 = view_cache v1.
Proof.
  intros Hnd v1 Hfresh v2.
  assert (Hsame : view_portfolio v2 = view_portfolio v1 /\
                  view_requests v2 = [] /\ view_cache v2 = view_cache v1).
  { unfold v2, buildView at 1 2 3. rewrite pricePositions_served by done.
    simpl. split; [|done].
    unfold v1, buildView. simpl.
    by rewrite (pricePositions_cached envs1 rows Hnd 0). }
  destruct Hsame as (Hp & Hr & Hc). split; [done|]. split; [|done].
  unfold v2, v1, buildView in *. simpl in *. by rewrite Hp.
Qed.

(** A build at times 1000 and 1001 against an empty cache, the provider
    quoting 15, then one at 60998 and 60999 with the provider down. *)
Lemma buildView_idempotent_witness :
  let rows := [{| row_symbol := "ACME"; row_net_qty := JString "10";
                  row_avg_price := JString "12.5" |};
               {| row_symbol := "INIT"; row_net_qty := JString "3";
                  row_avg_price := JNull |}] in
  let envs1 := fun k : nat =>
    {| apiKey := Some "demo"; now := 1000 + Z.of_nat k;
       fetch := fun _ => Responds (quoteOf "15.00") |} in
  let envs2 := fun k : nat =>
    {| apiKey := Some "demo"; now := 60998 + Z.of_nat k;
       fetch := fun _ => Rejects |} in
  let v1 := buildView envs1 rows ∅ in
  let v2 := buildView envs2 rows (view_cache v1) in
  view_portfolio v2 = view_portfolio v1 /\
  view_totalValue v2 = view_totalValue v1 /\
  view_requests v2 = [] /\
  view_cache v2 = view_cache v1.
Proof.
  intros rows envs1 envs2.
  apply (buildView_idempotent envs1 envs2 rows ∅).
  - unfold rows. compute_done.
  - intros [|[|k]] r Hr; [| |discriminate Hr].
    + injection Hr as <-. by vm_compute.
    + injection Hr as <-. by vm_compute.
Defined.

(** Without a key, a call on a cache that holds no price returns [null],
    requests nothing and leaves a cache that holds no price. *)
Lemma fetchCurrentPrice_unpriced (env : Env) (symbol : string)
    (priceCache : gmap string CacheEntry) :
  keyMissing (apiKey env) = true ->
  unpriced priceCache ->
  let o := fetchCurrentPrice env symbol priceCache in
  returned o = None /\ requested o = [] /\ unpriced (cacheAfter o).
Proof.
  intros Hk Hc o. subst o.
  destruct (isFresh (now env) (priceCache !! JsString.toUpperCase symbol)) eqn:Hf.
  - rewrite fetchCurrentPrice_hit by done. simpl. split; [|done].
    destruct (priceCache !! JsString.toUpperCase symbol) as [e|] eqn:He; [|done].
    simpl. by eapply Hc.
  - rewrite fetchCurrentPrice_no_key by done. simpl. split; [done|]. split; [done|].
    intros key e. unfold store. rewrite lookup_insert.
    case_decide; [by intros [= <-]|by apply Hc].
Qed.

Lemma pricePositions_unpriced (envs : nat -> Env) (rows : list Row) :
  (forall k, keyMissing (apiKey (envs k)) = true) ->
  forall (k : nat) (acc : Loop),
    unpriced (cache acc) ->
    let l := pricePositions envs k rows acc in
    portfolio l = portfolio acc ++ ((fun r => position r None) <$> rows) /\
    requests l = requests acc /\
    unpriced (cache l).
Proof.
  intros Hk. induction rows as [|r rows IH]; intros k acc Hc; simpl.
  - by rewrite app_nil_r.
  - destruct (fetchCurrentPrice_unpriced (envs k) (row_symbol r) (cache acc))
      as (-> & -> & Hc'); [done..|].
    match goal with
    | |- context [pricePositions envs (S k) rows ?a] =>
        destruct (IH (S k) a Hc') as (-> & -> & Hc'')
    end.
    simpl. split; [by rewrite <- app_assoc|]. split; [apply app_nil_r|done].
Qed.

Lemma totalValue_unpriced (ps : list Position) :
  Forall (fun p => marketValue p = None) ps -> totalValue ps = JsNumber.zero.
Proof.
  unfold totalValue. induction 1 as [|p ps Hp _ IH]; [done|].
  simpl. by rewrite Hp.
Qed.

(** X6.  With no API key configured and no price in the cache, the route
    still answers: it makes no request, every position has a [null] current
    price and a [null] market value, and the total is [0]. *)
Theorem buildView_without_key (envs : nat -> Env) (rows : list Row)
    (priceCache : gmap string CacheEntry) :
  (forall k, keyMissing (apiKey (envs k)) = true) ->
  unpriced priceCache ->
  let v := buildView envs rows priceCache in
  view_requests v = [] /\
  view_portfolio v = (fun r => position r None) <$> rows /\
  Forall (fun p => currentPrice p = None /\ marketValue p = None)
         (view_portfolio v) /\
  view_totalValue v = JsNumber.zero /\
  unpriced (view_cache v).
Proof.
  intros Hk Hc v. subst v. unfold buildView.
  destruct (pricePositions_unpriced envs rows Hk 0
              {| portfolio := []; cache := priceCache; requests := [] |} Hc)
    as (Hp & Hr & Hc').
  simpl in *. rewrite Hp, Hr.
  assert (Hall : Forall (fun p => currentPrice p = None /\ marketValue p = None)
                   ((fun r => position r None) <$> rows)).
  { apply Forall_fmap, Forall_forall. by intros r _. }
  split; [done|]. split; [done|]. split; [done|]. split; [|done].
  apply totalValue_unpriced. eapply Forall_impl; [exact Hall|]. by intros p [_ ?].
Qed.

(** Two rows, an empty cache and the variable unset. *)
Lemma buildView_without_key_witness :
  let envs := fun k : nat =>
    {| apiKey := None; now := 1000 + Z.of_nat k;
       fetch := fun _ => Responds (quoteOf "15.00") |} in
  let rows := [{| row_symbol := "ACME"; row_net_qty := JString "10";
                  row_avg_price := JString "12.5" |};
               {| row_symbol := "INIT"; row_net_qty := JString "3";
                  row_avg_price := JNull |}] in
  let v := buildView envs rows ∅ in
  view_requests v = [] /\
  view_portfolio v = (fun r => position r None) <$> rows /\
  Forall (fun p => currentPrice p = None /\ marketValue p = None)
         (view_portfolio v) /\
  view_totalValue v = JsNumber.zero /\
  unpriced (view_cache v).
Proof.
  intros envs rows.
  apply (buildView_without_key envs rows ∅).
  - intros k. reflexivity.
  - intros key e He. by rewrite lookup_empty in He.
Defined.

(** ** More on the aggregation query *)

Lemma tradesOf_nil_SUM (f : Sql.Trade -> Qc) (s : string) (trades : list Sql.Trade) :
  tradesOf s trades = [] -> Sql.SUM f (tradesOf s trades) = 0%Qc.
Proof. by intros ->. Qed.

(** X7.  The query reports each symbol at most once, and reports exactly the
    symbols whose BUY quantities and other quantities do not cancel; the net
    quantity it reports is the sum of the BUY quantities less the sum of the
    quantities of all other records of the symbol: the type is compared with
    ['BUY'] as it is stored, and a record of any other type, ['SELL'] or
    not, counts as a sale. *)
Theorem aggregate_signed (scale : Qc -> Qc -> nat) (trades : list Sql.Trade) :
  NoDup (Sql.agg_symbol <$> Sql.aggregate scale trades) /\
  (forall s, s ∈ Sql.agg_symbol <$> Sql.aggregate scale trades <->
             sumQuantity "BUY" s trades ≠ sumNotBuy s trades) /\
  (forall row, row ∈ Sql.aggregate scale trades ->
               Sql.net_qty row =
               (sumQuantity "BUY" (Sql.agg_symbol row) trades
                - sumNotBuy (Sql.agg_symbol row) trades)%Qc).
Proof.
  split; [apply aggregate_NoDup|]. split.
  - intros s. rewrite list_elem_of_fmap. unfold sumQuantity, sumNotBuy. split.
    + intros (row & Hs & (s0 & _ & Hne & ->)%elem_of_aggregate).
      simpl in Hs. subst s0.
      rewrite SUM_signedQuantity in Hne. intros Heq. apply Hne.
      rewrite Heq. ring.
    + intros Hne.
      assert (Hsum : Sql.SUM Sql.signedQuantity (tradesOf s trades) ≠ 0%Qc).
      { rewrite SUM_signedQuantity. intros Hz. apply Hne.
        match type of Hz with
        | (?a - ?b)%Qc = _ =>
            transitivity ((a - b) + b)%Qc; [ring|rewrite Hz; ring]
        end. }
      exists {| Sql.agg_symbol := s;
                Sql.net_qty := Sql.SUM Sql.signedQuantity (tradesOf s trades);
                Sql.avg_price := Sql.AVG scale Sql.price (tradesOf s trades) |}.
      split; [done|]. apply elem_of_aggregate. exists s.
      split; [|done]. intros Hnil. apply Hsum. by rewrite Hnil.
  - intros row (s & _ & _ & ->)%elem_of_aggregate. simpl.
    apply SUM_signedQuantity.
Qed.

(** The same table read in any order gives the same rows. *)
Lemma elem_of_aggregate_Permutation (scale : Qc -> Qc -> nat)
    (trades trades' : list Sql.Trade) (row : Sql.AggRow) :
  trades ≡ₚ trades' ->
  row ∈ Sql.aggregate scale trades -> row ∈ Sql.aggregate scale trades'.
Proof.
  intros Hperm (s & Hne & Hsum & ->)%elem_of_aggregate.
  pose proof (tradesOf_Permutation s _ _ Hperm) as Hs.
  apply elem_of_aggregate. exists s.
  rewrite <- (SUM_Permutation Sql.signedQuantity _ _ Hs).
  split; [|split; [done|]].
  - intros Hnil. rewrite Hnil in Hs. by apply Permutation_nil_r in Hs.
  - unfold Sql.AVG, Sql.COUNT.
    by rewrite <- (SUM_Permutation Sql.price _ _ Hs), (Permutation_length Hs).
Qed.

(** X8.  The result does not depend on the order in which the table holds
    the trades: two tables with the same records give the same rows, up to
    their order. *)
Theorem aggregate_Permutation (scale : Qc -> Qc -> nat)
    (trades trades' : list Sql.Trade) :
  trades ≡ₚ trades' -> Sql.aggregate scale trades ≡ₚ Sql.aggregate scale trades'.
Proof.
  intros Hperm. apply NoDup_Permutation.
  - eapply NoDup_fmap_1, aggregate_NoDup.
  - eapply NoDup_fmap_1, aggregate_NoDup.
  - intros row. split; apply elem_of_aggregate_Permutation; [done|by symmetry].
Qed.

Lemma aggregate_Permutation_witness :
  Sql.aggregate exampleScale [trade "ACME" "BUY" 5 10; trade "INIT" "BUY" 1 1;
                 trade "ACME" "SELL" 2 12]
  ≡ₚ Sql.aggregate exampleScale [trade "ACME" "SELL" 2 12; trade "ACME" "BUY" 5 10;
                    trade "INIT" "BUY" 1 1].
Proof.
  apply aggregate_Permutation.
  symmetry. apply (Permutation_cons_append [_; _]).
Defined.

(** A record of type HOLD and one of type buy in lower case both count as
    sales: 10 - (4 + 1) = 5. *)
Lemma aggregate_signed_witness :
  let trades := [trade "ACME" "BUY" 10 5; trade "ACME" "HOLD" 4 5;
                 trade "ACME" "buy" 1 5] in
  let row := {| Sql.agg_symbol := "ACME"; Sql.net_qty := Sql.ofZ 5;
                Sql.avg_price := Sql.ofZ 5 |} in
  row ∈ Sql.aggregate exampleScale trades /\
  Sql.ofZ 5 = (sumQuantity "BUY" "ACME" trades - sumNotBuy "ACME" trades)%Qc /\
  sumNotBuy "ACME" trades = Sql.ofZ 5.
Proof.
  intros trades row.
  assert (Hin : row ∈ Sql.aggregate exampleScale trades).
  { apply elem_of_aggregate. exists "ACME". split; [discriminate|].
    split; [by vm_compute|]. unfold row. f_equal; by apply Qc_is_canon. }
  split; [exact Hin|]. split; [|by apply Qc_is_canon].
  destruct (aggregate_signed exampleScale trades) as (_ & _ & H).
  apply (H row Hin).
Defined.

Lemma ofZ_plus (a b : Z) : Sql.ofZ (a + b) = (Sql.ofZ a + Sql.ofZ b)%Qc.
Proof.
  unfold Sql.ofZ, Qcplus. apply Q2Qc_eq_iff. cbn [this Q2Qc].
  by rewrite !Qred_correct, inject_Z_plus.
Qed.

Lemma ofZ_pos (z : Z) : 0 < z -> (0 < Sql.ofZ z)%Qc.
Proof.
  intros Hz. unfold Sql.ofZ, Qclt. cbn [this Q2Qc]. rewrite !Qred_correct.
  unfold Qlt. cbn. lia.
Qed.

Lemma COUNT_cons {A : Type} (x : A) (g : list A) :
  Sql.COUNT (x :: g) = (1 + Sql.COUNT g)%Qc.
Proof.
  unfold Sql.COUNT. simpl length. rewrite Nat2Z.inj_succ, <- Z.add_1_l.
  by rewrite ofZ_plus.
Qed.

Lemma COUNT_pos {A : Type} (g : list A) : g ≠ [] -> (0 < Sql.COUNT g)%Qc.
Proof.
  intros Hg. unfold Sql.COUNT. apply ofZ_pos. destruct g; [done|]. simpl. lia.
Qed.

Lemma SUM_lower {A : Type} (f : A -> Qc) (lo : Qc) (g : list A) :
  Forall (fun t => (lo <= f t)%Qc) g -> (lo * Sql.COUNT g <= Sql.SUM f g)%Qc.
Proof.
  induction 1 as [|t g Ht _ IH].
  - unfold Sql.COUNT. simpl. rewrite Qcmult_0_r. apply Qcle_refl.
  - rewrite COUNT_cons, SUM_cons, Qcmult_plus_distr_r, Qcmult_1_r.
    by apply Qcplus_le_compat.
Qed.

Lemma SUM_upper {A : Type} (f : A -> Qc) (hi : Qc) (g : list A) :
  Forall (fun t => (f t <= hi)%Qc) g -> (Sql.SUM f g <= hi * Sql.COUNT g)%Qc.
Proof.
  induction 1 as [|t g Ht _ IH].
  - unfold Sql.COUNT. simpl. rewrite Qcmult_0_r. apply Qcle_refl.
  - rewrite COUNT_cons, SUM_cons, Qcmult_plus_distr_r, Qcmult_1_r.
    by apply Qcplus_le_compat.
Qed.

(** The mean price of a symbol lies between the lowest and the highest
    price among its records. *)
Lemma meanPrice_bounds (trades : list Sql.Trade) (s : string) (lo hi : Qc) :
  tradesOf s trades ≠ [] ->
  (forall t, t ∈ trades -> Sql.symbol t = s ->
             (lo <= Sql.price t)%Qc /\ (Sql.price t <= hi)%Qc) ->
  (lo <= meanPrice s trades)%Qc /\ (meanPrice s trades <= hi)%Qc.
Proof.
  intros Hne Hb.
  pose proof (COUNT_pos _ Hne) as Hpos.
  assert (Hn0 : Sql.COUNT (tradesOf s trades) ≠ 0%Qc).
  { intros Hz. rewrite Hz in Hpos. by apply Qclt_not_eq in Hpos. }
  assert (Hdiv : (meanPrice s trades * Sql.COUNT (tradesOf s trades))%Qc
                 = Sql.SUM Sql.price (tradesOf s trades)).
  { unfold meanPrice. fold (Sql.COUNT (tradesOf s trades)).
    rewrite Qcmult_comm. by apply Qcmult_div_r. }
  split.
  - apply (Qcmult_le_mono_pos_r _ _ _ Hpos). rewrite Hdiv.
    apply SUM_lower, Forall_forall.
    intros t [Ht Hin]%list_elem_of_filter. by apply Hb.
  - apply (Qcmult_le_mono_pos_r _ _ _ Hpos). rewrite Hdiv.
    apply SUM_upper, Forall_forall.
    intros t [Ht Hin]%list_elem_of_filter. by apply Hb.
Qed.

(** X9.  The average price reported for a symbol lies between the lowest and
    the highest price among the records of that symbol, purchases and sales
    alike, each rounded to the number of decimals of the average; it lies
    between the two prices themselves when they have no more decimals than
    the average. *)
Theorem aggregate_avg_price_bounds (scale : Qc -> Qc -> nat)
    (trades : list Sql.Trade) (row : Sql.AggRow) (lo hi : Qc) :
  row ∈ Sql.aggregate scale trades ->
  (forall t, t ∈ trades -> Sql.symbol t = Sql.agg_symbol row ->
             (lo <= Sql.price t)%Qc /\ (Sql.price t <= hi)%Qc) ->
  let s := Sql.agg_symbol row in
  let n := scale (Sql.SUM Sql.price (tradesOf s trades))
                 (Sql.COUNT (tradesOf s trades)) in
  ((Sql.roundAt n lo <= Sql.avg_price row)%Qc /\
   (Sql.avg_price row <= Sql.roundAt n hi)%Qc) /\
  (forall z z', lo = Sql.decimal n z -> hi = Sql.decimal n z' ->
                (lo <= Sql.avg_price row)%Qc /\ (Sql.avg_price row <= hi)%Qc).
Proof.
  intros (s & Hne & _ & ->)%elem_of_aggregate Hb s0 n. subst s0.
  cbn [Sql.agg_symbol Sql.avg_price] in *. rewrite meanPrice_AVG. fold n.
  destruct (meanPrice_bounds trades s lo hi Hne Hb) as [Hlo Hhi].
  assert (Hr : (Sql.roundAt n lo <= Sql.roundAt n (meanPrice s trades))%Qc /\
               (Sql.roundAt n (meanPrice s trades) <= Sql.roundAt n hi)%Qc)
    by (split; by apply roundAt_mono).
  split; [exact Hr|]. intros z z' Hz Hz'.
  rewrite Hz, Hz', !roundAt_decimal in Hr. by rewrite Hz, Hz'.
Qed.

(** Bought at 10 and sold at 12: the average, 11, is between the two. *)
Lemma aggregate_avg_price_bounds_witness :
  let trades := [trade "ACME" "BUY" 5 10; trade "ACME" "SELL" 2 12] in
  let row := {| Sql.agg_symbol := "ACME"; Sql.net_qty := Sql.ofZ 3;
                Sql.avg_price := Sql.ofZ 11 |} in
  row ∈ Sql.aggregate exampleScale trades /\
  (Sql.ofZ 10 <= Sql.avg_price row)%Qc /\ (Sql.avg_price row <= Sql.ofZ 12)%Qc.
Proof.
  intros trades row.
  assert (Hin : row ∈ Sql.aggregate exampleScale trades).
  { apply elem_of_aggregate. exists "ACME". split; [discriminate|].
    split; [by vm_compute|]. unfold row. f_equal; apply Qc_is_canon; by vm_compute. }
  split; [exact Hin|].
  destruct (aggregate_avg_price_bounds exampleScale trades row
              (Sql.ofZ 10) (Sql.ofZ 12) Hin) as [_ H].
  - intros t Ht _. unfold trades in Ht.
    apply elem_of_cons in Ht as [->|Ht];
      [|apply list_elem_of_singleton in Ht as ->]; split; by vm_compute.
  - apply (H (10 * 10 ^ 16) (12 * 10 ^ 16)); apply Qc_is_canon; by vm_compute.
Defined.

(** ** The URL of a request *)

Lemma encodeURIComponent_cons (c : ascii) (s : string) :
  allChars urlSafe (JsString.encodeURIComponent (String c s)) =
    allChars urlSafe (JsString.encodeURIComponent s) /\
  hasLower (JsString.encodeURIComponent (String (JsString.upperChar c) s)) =
    hasLower (JsString.encodeURIComponent s).
Proof. destruct c as [[] [] [] [] [] [] [] []]; split; reflexivity. Qed.

Lemma encodeURIComponent_safe (s : string) :
  allChars urlSafe (JsString.encodeURIComponent s) = true.
Proof.
  induction s as [|c s IH]; [done|].
  by rewrite (proj1 (encodeURIComponent_cons c s)).
Qed.

Lemma encodeURIComponent_upper (s : string) :
  hasLower (JsString.encodeURIComponent (JsString.toUpperCase s)) = false.
Proof.
  induction s as [|c s IH]; [done|]. cbn [JsString.toUpperCase].
  by rewrite (proj2 (encodeURIComponent_cons c _)).
Qed.

(** X16.  Every URL [fetchCurrentPrice] requests is the quote URL for the
    upper-cased symbol with the configured, non-empty key.  The symbol is
    percent-encoded: what stands between [symbol=] and [&apikey=] holds only
    letters, digits, the marks [- _ . ! ~ * ' ( )] and percent signs, none of
    the letters in lower case, so that no symbol can add to or cut short the
    query string. *)
Theorem requested_url (env : Env) (symbol url : string)
    (priceCache : gmap string CacheEntry) :
  url ∈ requested (fetchCurrentPrice env symbol priceCache) ->
  exists k encoded,
    apiKey env = Some k /\ k ≠ EmptyString /\
    encoded = JsString.encodeURIComponent (JsString.toUpperCase symbol) /\
    url = "https://www.alphavantage.co/query?function=GLOBAL_QUOTE&symbol="
          +:+ encoded +:+ "&apikey=" +:+ k /\
    allChars urlSafe encoded = true /\
    hasLower encoded = false.
Proof.
  destruct (fetchCurrentPrice_cases env symbol priceCache)
    as [(_ & _ & _ & ->)|(_ & _ & ->)]; [by intros ?%elem_of_nil|].
  destruct (apiKey env) as [[|c k]|] eqn:Hk; simpl;
    try by intros ?%elem_of_nil.
  intros ->%list_elem_of_singleton.
  exists (String c k), (JsString.encodeURIComponent (JsString.toUpperCase symbol)).
  split; [done|]. split; [done|]. split; [done|]. split; [done|].
  split; [apply encodeURIComponent_safe|apply encodeURIComponent_upper].
Qed.

(** A symbol with an ampersand and a space in it. *)
Lemma requested_url_witness :
  let env := {| apiKey := Some "demo"; now := 1000; fetch := fun _ => Rejects |} in
  exists k encoded,
    apiKey env = Some k /\ k ≠ EmptyString /\
    encoded = JsString.encodeURIComponent (JsString.toUpperCase "a&b c") /\
    "https://www.alphavantage.co/query?function=GLOBAL_QUOTE&symbol=A%26B%20C&apikey=demo"
      = "https://www.alphavantage.co/query?function=GLOBAL_QUOTE&symbol="
        +:+ encoded +:+ "&apikey=" +:+ k /\
    allChars urlSafe encoded = true /\
    hasLower encoded = false.
Proof.
  intros env.
  apply (requested_url env "a&b c" _ ∅).
  vm_compute. apply list_elem_of_here.
Defined.

(** ** More on rounding, on the body of the provider and on the route *)

(** X17.  The market value is rounded to the nearest multiple of 0.0001, a
    tie going to the one larger in magnitude: for a product [m * 2 ^ e] of
    magnitude below [10 ^ 21] that is not a whole number, [toFixed(4)] prints
    the digits of an integer [n] with [-1/2 < n - |x| * 10 ^ 4 <= 1/2], and
    the market value is the number nearest to [n / 10 ^ 4], with the sign of
    the product. *)
Theorem toFixed4_nearest (s : bool) (m : positive) (e : Z) :
  e < 0 ->
  JsNumber.atLeast1e21 m e = false ->
  exists n : Z,
    0 <= n /\
    - 2 ^ (- e) < 2 * (n * 2 ^ (- e) - Z.pos m * 10 ^ 4) <= 2 ^ (- e) /\
    JsNumber.toFixed4 (S754_finite s m e) = JsNumber.ofDecimal s (Z.to_N n) (-4).
Proof.
  intros He Hbig. exists (JsNumber.fixedDigits 4 m e).
  pose proof (fixedDigits_nearest 4 m e He) as Hn. simpl in Hn.
  split; [|split; [by apply Hn|by apply toFixed4_finite]].
  unfold JsNumber.fixedDigits. rewrite (proj2 (Z.leb_gt 0 e)) by lia.
  apply Z.div_pos; [|apply Z.mul_pos_pos; [lia|apply Z.pow_pos_nonneg; lia]].
  pose proof (Z.pow_pos_nonneg 2 (- e)). lia.
Qed.

(** 1.00005 is held as the binary64 number just above it, and is rounded
    up, to 1.0001. *)
Lemma toFixed4_nearest_witness :
  let x := JsNumber.ofDecimal false 100005 (-5) in
  x = S754_finite false 4503824807351865 (-52) /\
  JsNumber.toFixed4 x = JsNumber.ofDecimal false 10001 (-4) /\
  exists n : Z,
    0 <= n /\
    - 2 ^ 52 < 2 * (n * 2 ^ 52 - 4503824807351865 * 10 ^ 4) <= 2 ^ 52 /\
    JsNumber.toFixed4 x = JsNumber.ofDecimal false (Z.to_N n) (-4).
Proof.
  intros x. split; [reflexivity|]. split; [reflexivity|].
  apply (toFixed4_nearest false 4503824807351865 (-52)); [lia|reflexivity].
Defined.

(** What the [try] block leaves in [price] is [null] exactly when it throws
    or the body has no truthy price field; it throws when the request fails
    or the price field cannot be printed. *)
Lemma tryQuote_None (env : Env) (url : string) :
  match tryQuote env url with Normal p => p | Throw => None end = None <->
  fetch env url = Rejects \/
  exists data, fetch env url = Responds data /\
               forall v, priceField data = Some v ->
                         Json.toBoolean v = false \/ Json.unprintable v = true.
Proof.
  unfold tryQuote. destruct (fetch env url) as [|data] eqn:Hf.
  - split; [by left|done].
  - rewrite quotePrice_priceField. split.
    + intros Hnone. right. exists data. split; [done|]. intros v Hv.
      rewrite Hv in Hnone.
      destruct (Json.toBoolean v), (Json.unprintable v); auto; done.
    + intros [?|(data' & [= <-] & Hv)]; [done|].
      destruct (priceField data) as [v|]; [|done].
      by destruct (Hv v eq_refl) as [->| ->]; [|rewrite andb_false_r].
Qed.

Lemma tryQuote_Some (env : Env) (url : string) (data v : json) :
  fetch env url = Responds data ->
  priceField data = Some v ->
  Json.toBoolean v = true -> Json.unprintable v = false ->
  tryQuote env url = Normal (Some (Json.parseFloat v)).
Proof.
  intros Hf Hv Ht Hu. unfold tryQuote. rewrite Hf.
  unfold quotePrice, priceField in *.
  destruct data as [| | | | |fields]; try done. simpl in *.
  destruct (Json.member "Global Quote" fields) as [[| | | | |quote]|]; try done.
  simpl. rewrite Hv. simpl. by rewrite Ht, Hu.
Qed.

(** X18.  When a price is looked up at the provider, the answer is [null]
    in exactly these cases: the request or the reading of its body fails; the
    body is [null]; the body has no price field that is truthy (none at all,
    as in the provider's notes on rate limits, or an empty string, [0],
    [false] or [null]); or the price field cannot be printed as a string (an
    object with a member named [toString], or an array that holds one), so
    that [parseFloat] throws and the [catch] block answers.  For any other
    body the answer is the number [parseFloat] reads off the price field. *)
Theorem returned_null_iff (env : Env) (symbol : string)
    (priceCache : gmap string CacheEntry) :
  let key := JsString.toUpperCase symbol in
  let url := quoteUrl key (default EmptyString (apiKey env)) in
  let o := fetchCurrentPrice env symbol priceCache in
  isFresh (now env) (priceCache !! key) = false ->
  keyMissing (apiKey env) = false ->
  (returned o = None <->
   fetch env url = Rejects \/
   exists data, fetch env url = Responds data /\
                forall v, priceField data = Some v ->
                          Json.toBoolean v = false \/ Json.unprintable v = true) /\
  (forall data v, fetch env url = Responds data -> priceField data = Some v ->
                  Json.toBoolean v = true -> Json.unprintable v = false ->
                  returned o = Some (Json.parseFloat v)).
Proof.
  intros key url o Hf Hk. subst o.
  rewrite fetchCurrentPrice_refresh by done. simpl. fold key url. split.
  - apply tryQuote_None.
  - intros data v Hd Hv Ht Hu. by rewrite (tryQuote_Some _ _ _ _ Hd Hv Ht Hu).
Qed.

(** A body whose price field is an object with a member [toString]:
    [parseFloat] throws on it, and the answer is [null]. *)
Lemma returned_null_iff_witness :
  let field := JObject [("toString", JString "189.98")] in
  let body := JObject [("Global Quote", JObject [("05. price", field)])] in
  let env := {| apiKey := Some "demo"; now := 1000; fetch := fun _ => Responds body |} in
  returned (fetchCurrentPrice env "aapl" ∅) = None.
Proof.
  intros field body env.
  assert (H := returned_null_iff env "aapl" ∅).
  destruct H as [[_ H] _]; [reflexivity..|].
  apply H. right. exists body. split; [reflexivity|].
  intros v Hv. vm_compute in Hv. injection Hv as <-. right. reflexivity.
Defined.

(** X19.  The portfolio shows each symbol at most once, and shows exactly
    the symbols whose signed quantities do not cancel, in the order of the
    query; with no trade in the table it is empty, nothing is requested and
    the total is [0]. *)
Theorem getPortfolio_reports (scale : Qc -> Qc -> nat)
    (text : Qc -> string) (envs : nat -> Env)
    (ledger : list Sql.Trade) (priceCache : gmap string CacheEntry) :
  let v := getPortfolio text scale envs ledger priceCache in
  NoDup (symbol <$> view_portfolio v) /\
  (forall s, s ∈ symbol <$> view_portfolio v <->
             Sql.SUM Sql.signedQuantity (tradesOf s ledger) ≠ 0%Qc) /\
  (ledger = [] ->
   view_portfolio v = [] /\ view_requests v = [] /\
   view_totalValue v = JsNumber.zero /\ view_cache v = priceCache).
Proof.
  intros v. subst v. rewrite getPortfolio_symbols.
  split; [apply aggregate_NoDup|]. split; [|by intros ->].
  intros s. rewrite list_elem_of_fmap. split.
  - intros (row & Hs & (s0 & _ & Hne & ->)%elem_of_aggregate).
    simpl in Hs. by subst s0.
  - intros Hne.
    exists {| Sql.agg_symbol := s;
              Sql.net_qty := Sql.SUM Sql.signedQuantity (tradesOf s ledger);
              Sql.avg_price := Sql.AVG scale Sql.price (tradesOf s ledger) |}.
    split; [done|]. apply elem_of_aggregate. exists s.
    split; [|done]. intros Hnil. apply Hne. by rewrite Hnil.
Qed.

(** ** The ledger routes *)

Lemma toUpperCase_fixed (s : string) :
  hasLower s = false -> JsString.toUpperCase s = s.
Proof.
  induction s as [|c s IH]; [done|]. simpl.
  intros [Hc Hs]%orb_false_iff. rewrite IH by done.
  unfold JsString.upperChar. by rewrite Hc.
Qed.

Section LedgerFacts.
Context {Id : Type} `{EqDecision Id}.
Variable numberToString : JsNumber.number -> string.
Variable numeric : json -> option Qc.
Variable readId : string -> option Id.

(** The two ways [POST /api/trades] ends: without a write, or with status
    200 and one row appended. *)
Lemma postTrade_cases (engine : option Id) (body : option json)
    (table : list (TradeRow Id)) :
  (exists status, postTrade numberToString numeric engine body table = (status, table) /\
                  forall row, status ≠ Json200 row) \/
  (exists b i q p,
     body = Some b /\ engine = Some i /\
     truthy (field "symbol" b) = true /\ truthy (field "quantity" b) = true /\
     truthy (field "price" b) = true /\ truthy (field "type" b) = true /\
     numeric (default JNull (field "quantity" b)) = Some q /\
     numeric (default JNull (field "price" b)) = Some p /\
     (Json.unprintable (default JNull (field "symbol" b)) = false /\
      Json.unprintable (default JNull (field "type" b)) = false) /\
     let row :=
       {| id := i;
          record :=
            {| Sql.symbol :=
                 JsString.toUpperCase
                   (toString numberToString (default JNull (field "symbol" b)));
               Sql.quantity := q;
               Sql.price := p;
               Sql.type :=
                 JsString.toUpperCase
                   (toString numberToString (default JNull (field "type" b))) |} |} in
     postTrade numberToString numeric engine body table = (Json200 row, table ++ [row])).
Proof.
  unfold postTrade.
  destruct body as [b|]; [|left; by exists Status500].
  destruct (truthy (field "symbol" b)) eqn:Hs,
           (truthy (field "quantity" b)) eqn:Hq,
           (truthy (field "price" b)) eqn:Hp,
           (truthy (field "type" b)) eqn:Ht; simpl;
    try (left; destruct b; by (exists Status400 + exists Status500)).
  destruct (Json.unprintable (default JNull (field "symbol" b))) eqn:Hus,
           (Json.unprintable (default JNull (field "type" b))) eqn:Hut; simpl;
    try (left; destruct b; by exists Status500).
  destruct engine as [i|],
           (numeric (default JNull (field "quantity" b))) as [q|] eqn:Hnq,
           (numeric (default JNull (field "price" b))) as [p|] eqn:Hnp;
    try (left; destruct b; by exists Status500).
  destruct b; try (left; by exists Status500);
    right; eexists _, i, q, p; by rewrite ?Hnq, ?Hnp, ?Hus, ?Hut.
Qed.

(** X10.  [POST /api/trades] writes nothing unless it answers 200: a body
    that is missing, or lacks one of the four fields, or holds a falsy one
    (a quantity or a price of [0], an empty symbol or type), or a failure of
    the engine, leaves the table as it is.  When it answers 200 it has
    appended exactly one row, the one it sends back, whose symbol and type
    hold no lower-case letter. *)
Theorem postTrade_writes (engine : option Id) (body : option json)
    (table : list (TradeRow Id)) :
  let '(response, table') := postTrade numberToString numeric engine body table in
  match response with
  | Json200 row =>
      table' = table ++ [row] /\
      hasLower (Sql.symbol (record row)) = false /\
      hasLower (Sql.type (record row)) = false /\
      exists b, body = Some b /\
                truthy (field "symbol" b) = true /\
                truthy (field "quantity" b) = true /\
                truthy (field "price" b) = true /\
                truthy (field "type" b) = true
  | _ => table' = table
  end.
Proof.
  destruct (postTrade_cases engine body table)
    as [(status & -> & Hs)|(b & i & q & p & -> & -> & Hs & Hq & Hp & Ht & _ & _ & _ & ->)].
  - destruct status as [row| |]; [by destruct (Hs row)|done..].
  - simpl. rewrite !hasLower_toUpperCase. split; [done|]. split; [done|].
    split; [done|]. by exists b.
Qed.

(** The rows of a table keep their case through any request. *)
Lemma handle_upperCased (table : list (TradeRow Id)) (r : Request) :
  upperCased table -> upperCased (handle numberToString numeric readId table r).
Proof.
  intros Hu. destruct r as [engine body|up idText]; simpl.
  - destruct (postTrade_cases engine body table)
      as [(status & -> & _)|(b & i & q & p & _ & _ & _ & _ & _ & _ & _ & _ & _ & ->)];
      [done|].
    simpl. apply Forall_app. split; [done|]. apply Forall_singleton. simpl.
    by rewrite !hasLower_toUpperCase.
  - unfold deleteTrade. destruct up, (readId idText); simpl; try done.
    unfold upperCased in *. rewrite Forall_forall in Hu. apply Forall_forall.
    intros r [_ Hr]%list_elem_of_filter. by apply Hu.
Qed.

Lemma handleAll_upperCased (requests : list Request) (table : list (TradeRow Id)) :
  upperCased table ->
  upperCased (handleAll numberToString numeric readId requests table).
Proof.
  unfold handleAll. revert table.
  induction requests as [|r requests IH]; intros table Hu; simpl; [done|].
  by apply IH, handle_upperCased.
Qed.

(** X11.  Whatever is posted and deleted, starting from an empty table,
    every symbol of the table is written in upper case.  The symbols the
    portfolio query reports are then their own keys in the price cache, and no
    two rows of the portfolio share a cache entry. *)
Theorem ledger_symbols_upper (scale : Qc -> Qc -> nat)
    (requests : list Request) (text : Qc -> string) :
  let table := handleAll numberToString numeric readId requests [] in
  upperCased table /\
  (forall row, row ∈ Sql.aggregate scale (trades table) ->
               JsString.toUpperCase (Sql.agg_symbol row) = Sql.agg_symbol row) /\
  NoDup (rowKey <$> (rowOf text <$> Sql.aggregate scale (trades table))).
Proof.
  intros table.
  assert (Hu : upperCased table) by (apply handleAll_upperCased, Forall_nil_2).
  assert (Hrow : forall row, row ∈ Sql.aggregate scale (trades table) ->
             JsString.toUpperCase (Sql.agg_symbol row) = Sql.agg_symbol row).
  { intros row (s & Hne & _ & ->)%elem_of_aggregate. simpl.
    apply toUpperCase_fixed.
    destruct (tradesOf s (trades table)) as [|t l] eqn:E; [done|].
    assert (Ht : t ∈ tradesOf s (trades table)) by (rewrite E; left).
    apply list_elem_of_filter in Ht as [<- Ht].
    apply list_elem_of_fmap in Ht as (r & -> & Hr).
    unfold upperCased in Hu. rewrite Forall_forall in Hu. by apply Hu. }
  split; [done|]. split; [done|].
  rewrite <- list_fmap_compose.
  assert (Heq : (rowKey ∘ rowOf text) <$> Sql.aggregate scale (trades table) =
                Sql.agg_symbol <$> Sql.aggregate scale (trades table)).
  { apply Forall_fmap_ext_1, Forall_forall. intros row Hin.
    unfold rowKey. simpl. by apply Hrow. }
  rewrite Heq. apply aggregate_NoDup.
Qed.

Lemma SUM_app {A : Type} (f : A -> Qc) (g1 g2 : list A) :
  Sql.SUM f (g1 ++ g2) = (Sql.SUM f g1 + Sql.SUM f g2)%Qc.
Proof.
  induction g1 as [|x g1 IH].
  - rewrite app_nil_l. change (Sql.SUM f []) with 0%Qc. by rewrite Qcplus_0_l.
  - rewrite <- app_comm_cons, !SUM_cons, IH. ring.
Qed.

Lemma tradesOf_app (s : string) (l1 l2 : list Sql.Trade) :
  tradesOf s (l1 ++ l2) = tradesOf s l1 ++ tradesOf s l2.
Proof. apply filter_app. Qed.

(** Rows of the result for symbols other than [s] depend on the records of
    those symbols alone. *)
Lemma aggregate_other (scale : Qc -> Qc -> nat)
    (s : string) (l l' : list Sql.Trade) (row : Sql.AggRow) :
  (forall s', s' ≠ s -> tradesOf s' l' = tradesOf s' l) ->
  Sql.agg_symbol row ≠ s ->
  row ∈ Sql.aggregate scale l' <-> row ∈ Sql.aggregate scale l.
Proof.
  intros Hsame Hrow. rewrite !elem_of_aggregate.
  split; intros (s' & Hne & Hsum & ->); simpl in Hrow; exists s'.
  - by rewrite <- (Hsame s' Hrow).
  - by rewrite (Hsame s' Hrow).
Qed.

(** X12.  A trade that [POST /api/trades] accepts moves the net quantity of
    its symbol, written in upper case, and of no other: up by its quantity
    when its type, in whatever letter case it was sent, spells BUY, and down
    by its quantity for any other type.  The rows of the portfolio query for
    all other symbols stay as they are. *)
Theorem postTrade_net (scale : Qc -> Qc -> nat)
    (engine : option Id) (body : option json)
    (table table' : list (TradeRow Id)) (row : TradeRow Id) :
  postTrade numberToString numeric engine body table = (Json200 row, table') ->
  let t := record row in
  Sql.SUM Sql.signedQuantity (tradesOf (Sql.symbol t) (trades table')) =
    (Sql.SUM Sql.signedQuantity (tradesOf (Sql.symbol t) (trades table))
     + (if String.eqb (Sql.type t) "BUY" then Sql.quantity t
        else - Sql.quantity t))%Qc /\
  (forall b ty, body = Some b -> field "type" b = Some (JString ty) ->
                (sameSpelling ty "BUY" -> Sql.type t = "BUY") /\
                (JsString.toUpperCase ty ≠ "BUY" -> Sql.type t ≠ "BUY")) /\
  (forall other, Sql.agg_symbol other ≠ Sql.symbol t ->
                 other ∈ Sql.aggregate scale (trades table') <->
                 other ∈ Sql.aggregate scale (trades table)).
Proof.
  intros Hpost t.
  destruct (postTrade_cases engine body table)
    as [(status & Heq & Hs)|(b & i & q & p & -> & -> & _ & _ & _ & _ & _ & _ & _ & Heq)].
  { rewrite Heq in Hpost. injection Hpost as -> _. by destruct (Hs row). }
  rewrite Heq in Hpost. injection Hpost as <- <-. subst t.
  unfold trades. rewrite fmap_app. simpl.
  split; [|split].
  - rewrite tradesOf_app, SUM_app. f_equal.
    unfold tradesOf. rewrite filter_cons_True by done.
    rewrite filter_nil. unfold Sql.SUM, Sql.signedQuantity. simpl.
    by rewrite Qcplus_0_r.
  - intros b' ty [= <-] Hty. rewrite Hty. simpl. split.
    + by intros ->%sameSpelling_toUpperCase.
    + done.
  - intros other Hother. eapply aggregate_other; [|exact Hother].
    intros s' Hs'. rewrite tradesOf_app.
    unfold tradesOf at 2. rewrite filter_cons_False by (simpl; congruence).
    by rewrite filter_nil, app_nil_r.
Qed.

(** X13.  [DELETE /api/trades/:id] removes the rows with that key and no
    other, keeping the order of the rest, and answers [{ success: true }]
    whether or not a row had the key: when none has, the table is left as it
    is, and deleting a second time does just that. *)
Theorem deleteTrade_removes (idText : string) (i : Id)
    (table : list (TradeRow Id)) :
  readId idText = Some i ->
  let '(response, table') := deleteTrade readId true idText table in
  response = Json200 tt /\
  table' = filter (fun r => id r ≠ i) table /\
  (forall r, r ∈ table' <-> r ∈ table /\ id r ≠ i) /\
  (i ∉ id <$> table -> table' = table) /\
  deleteTrade readId true idText table' = (Json200 tt, table').
Proof.
  intros Hid. unfold deleteTrade. rewrite Hid.
  split; [done|]. split; [done|]. split; [|split].
  - intros r. rewrite list_elem_of_filter. tauto.
  - intros Hout. induction table as [|r table IH]; [done|].
    rewrite fmap_cons, not_elem_of_cons in Hout. destruct Hout as [Hr Hout].
    rewrite filter_cons_True by done. by rewrite IH.
  - f_equal. induction table as [|r table IH]; [done|].
    rewrite filter_cons. destruct (decide (id r ≠ i)); [|done].
    rewrite filter_cons_True by done. by rewrite IH.
Qed.

(** X14.  Posting a trade and deleting it by the key it was given leaves the
    table as it was, provided no row had that key before. *)
Theorem postTrade_deleteTrade (engine : option Id) (body : option json)
    (table table' : list (TradeRow Id)) (row : TradeRow Id) (idText : string) :
  postTrade numberToString numeric engine body table = (Json200 row, table') ->
  id row ∉ id <$> table ->
  readId idText = Some (id row) ->
  deleteTrade readId true idText table' = (Json200 tt, table).
Proof.
  intros Hpost Hfresh Hid.
  destruct (postTrade_cases engine body table)
    as [(status & Heq & Hs)|(b & i & q & p & _ & _ & _ & _ & _ & _ & _ & _ & _ & Heq)].
  { rewrite Heq in Hpost. injection Hpost as -> _. by destruct (Hs row). }
  rewrite Heq in Hpost. injection Hpost as <- <-. simpl in *.
  unfold deleteTrade. rewrite Hid. f_equal.
  rewrite filter_app, filter_cons_False by (intros Hne; by apply Hne).
  rewrite filter_nil, app_nil_r.
  clear Heq. induction table as [|r table IH]; [done|].
  rewrite fmap_cons, not_elem_of_cons in Hfresh. destruct Hfresh as [Hr Hfresh].
  rewrite filter_cons_True by done. by rewrite IH.
Qed.
End LedgerFacts.

(** ** The form *)

Lemma toUpperCase_idemp (s : string) :
  JsString.toUpperCase (JsString.toUpperCase s) = JsString.toUpperCase s.
Proof. apply toUpperCase_fixed, hasLower_toUpperCase. Qed.

(** [parseNumber] never gives [NaN] or an infinity. *)
Lemma parseNumber_finite (v : option string) :
  JsNumber.isFinite (Page.parseNumber v) = true.
Proof.
  unfold Page.parseNumber. destruct v as [[|c s]|]; try done.
  by destruct (JsNumber.isFinite (Page.toNumber (String c s))) eqn:E.
Qed.

(** A number that is finite and not zero is sent as itself. *)
Lemma sent_truthy (x : JsNumber.number) :
  JsNumber.isFinite x = true ->
  Json.toBoolean (Page.sent x) = JsNumber.toBoolean x /\
  (JsNumber.toBoolean x = true -> Page.sent x = JNumber x).
Proof. by destruct x as [[]| | |]. Qed.

(** The two ways of [posted]. *)
Lemma posted_cases (form : Page.Form) :
  (Page.trim (Page.symbol form) = EmptyString /\ Page.posted form = None) \/
  (Page.trim (Page.symbol form) ≠ EmptyString /\
   Page.posted form =
     Some (JObject
             [("symbol", JString (JsString.toUpperCase (Page.trim (Page.symbol form))));
              ("quantity", Page.sent (Page.parseNumber (Some (Page.quantity form))));
              ("price", Page.sent (Page.parseNumber (Some (Page.price form))));
              ("type", JString (Page.type form))])).
Proof.
  unfold Page.posted.
  destruct (Page.symbol form) as [|c s] eqn:Hs; [by left|].
  destruct (Page.trim (String c s)) as [|c' s'] eqn:Ht; [by left|by right].
Qed.

(** X15.  A trade entered in the form reaches the table only when its symbol
    is not blank and its quantity and its price both read as finite numbers
    other than zero: an empty or unreadable quantity or price is sent as
    [0], which the route refuses, and [submitTrade] ends at its failure
    alert with nothing written.  The row written carries the symbol trimmed
    and in upper case, the type in upper case, and the two numbers as the
    engine reads them. *)
Theorem submitTrade_stores {Id : Type} (numberToString : JsNumber.number -> string)
    (numeric : json -> option Qc) (engine : option Id) (form : Page.Form)
    (table : list (TradeRow Id)) :
  let quantity := Page.parseNumber (Some (Page.quantity form)) in
  let price := Page.parseNumber (Some (Page.price form)) in
  let '(outcome, table') := submitTrade numberToString numeric engine form table in
  match outcome with
  | Page.Cleared =>
      Page.trim (Page.symbol form) ≠ EmptyString /\
      JsNumber.isFinite quantity = true /\ JsNumber.toBoolean quantity = true /\
      JsNumber.isFinite price = true /\ JsNumber.toBoolean price = true /\
      exists i q p,
        engine = Some i /\
        numeric (JNumber quantity) = Some q /\
        numeric (JNumber price) = Some p /\
        table' = table ++
          [{| id := i;
              record :=
                {| Sql.symbol := JsString.toUpperCase (Page.trim (Page.symbol form));
                   Sql.quantity := q;
                   Sql.price := p;
                   Sql.type := JsString.toUpperCase (Page.type form) |} |}]
  | Page.Failed =>
      Page.trim (Page.symbol form) ≠ EmptyString /\ table' = table
  | Page.AskedForSymbol =>
      Page.trim (Page.symbol form) = EmptyString /\ table' = table
  end.
Proof.
  intros quantity price. unfold submitTrade.
  destruct (posted_cases form) as [[Ht ->]|[Ht ->]]; [done|].
  match goal with
  | |- context [postTrade _ _ _ (Some ?b) _] =>
      destruct (postTrade_cases numberToString numeric engine (Some b) table)
        as [(status & -> & Hst)
           |(b' & i & q & p & [= <-] & -> & _ & Hq & Hp & _ & Hnq & Hnp & _ & ->)]
  end.
  - by destruct status as [row| |]; [destruct (Hst row)|..].
  - assert (Hq' : Json.toBoolean (Page.sent quantity) = true) by exact Hq.
    assert (Hp' : Json.toBoolean (Page.sent price) = true) by exact Hp.
    assert (Hnq' : numeric (Page.sent quantity) = Some q) by exact Hnq.
    assert (Hnp' : numeric (Page.sent price) = Some p) by exact Hnp.
    clear Hq Hp Hnq Hnp.
    pose proof (parseNumber_finite (Some (Page.quantity form))) as Hfq.
    pose proof (parseNumber_finite (Some (Page.price form))) as Hfp.
    fold quantity in Hfq. fold price in Hfp.
    destruct (sent_truthy quantity Hfq) as [Hq1 Hq2].
    destruct (sent_truthy price Hfp) as [Hp1 Hp2].
    rewrite Hq1 in Hq'. rewrite Hp1 in Hp'.
    rewrite (Hq2 Hq') in Hnq'. rewrite (Hp2 Hp') in Hnp'.
    split; [done|]. do 4 (split; [done|]).
    exists i, q, p. do 3 (split; [done|]).
    cbn. by rewrite toUpperCase_idemp.
Qed.

(** ** Examples for the ledger routes *)

(** Ten units posted as ["aapl"], ["buy"]: stored as AAPL, BUY, and the net
    quantity of AAPL goes from 0 to 10. *)
Lemma postTrade_net_witness :
  let row := {| id := 1; record := trade "AAPL" "BUY" 10 5 |} in
  postTrade examplePrint exampleNumeric (Some 1)
    (Some (tradeBody "aapl" "buy" 10 5)) [] = (Json200 row, [row]) /\
  Sql.SUM Sql.signedQuantity (tradesOf "AAPL" (trades [row])) =
    (Sql.SUM Sql.signedQuantity (tradesOf "AAPL" (trades ([] : list (TradeRow Z))))
     + Sql.ofZ 10)%Qc.
Proof.
  intros row.
  assert (Hpost : postTrade examplePrint exampleNumeric (Some 1)
                    (Some (tradeBody "aapl" "buy" 10 5)) [] = (Json200 row, [row]))
    by reflexivity.
  split; [exact Hpost|].
  apply (postTrade_net examplePrint exampleNumeric exampleScale _ _ _ _ _ Hpost).
Defined.

(** Deleting key 2 from rows 1, 2, 3. *)
Lemma deleteTrade_removes_witness :
  let row i := {| id := i; record := trade "AAPL" "BUY" 10 5 |} in
  let table := [row 1; row 2; row 3] in
  let '(response, table') := deleteTrade exampleReadId true "2" table in
  response = Json200 tt /\
  table' = filter (fun r => id r ≠ 2) table /\
  (forall r, r ∈ table' <-> r ∈ table /\ id r ≠ 2) /\
  (2 ∉ id <$> table -> table' = table) /\
  deleteTrade exampleReadId true "2" table' = (Json200 tt, table').
Proof.
  intros row table.
  apply (deleteTrade_removes exampleReadId "2" 2 table). reflexivity.
Defined.

(** A trade posted to a table that holds keys 1 and 2, given key 3, and
    deleted by ["3"]. *)
Lemma postTrade_deleteTrade_witness :
  let table := [{| id := 1; record := trade "AAPL" "BUY" 10 5 |};
                {| id := 2; record := trade "INIT" "SELL" 1 7 |}] in
  let row := {| id := 3; record := trade "AAPL" "SELL" 4 6 |} in
  postTrade examplePrint exampleNumeric (Some 3)
    (Some (tradeBody "aapl" "sell" 4 6)) table = (Json200 row, table ++ [row]) /\
  deleteTrade exampleReadId true "3" (table ++ [row]) = (Json200 tt, table).
Proof.
  intros table row.
  assert (Hpost : postTrade examplePrint exampleNumeric (Some 3)
                    (Some (tradeBody "aapl" "sell" 4 6)) table
                  = (Json200 row, table ++ [row])) by reflexivity.
  split; [exact Hpost|].
  apply (postTrade_deleteTrade examplePrint exampleNumeric exampleReadId
           _ _ _ _ _ "3" Hpost).
  - unfold table. simpl. compute_done.
  - reflexivity.
Defined.

(** What [parseNumber] makes of what can stand in a field of the form. *)
Lemma parseNumber_examples :
  Page.parseNumber (Some "") = JsNumber.zero /\
  Page.parseNumber None = JsNumber.zero /\
  Page.parseNumber (Some "abc") = JsNumber.zero /\
  Page.parseNumber (Some "12abc") = JsNumber.zero /\
  Page.parseNumber (Some "1e999") = JsNumber.zero /\
  Page.parseNumber (Some " 12.5 ") = JsNumber.ofDecimal false 125 (-1) /\
  Page.parseNumber (Some "-3") = JsNumber.ofZ (-3).
Proof. repeat split; reflexivity. Qed.

(** An empty quantity: the route refuses the trade and the table is as it
    was. *)
Lemma submitTrade_empty_quantity :
  submitTrade examplePrint exampleNumeric (Some 1)
    {| Page.symbol := " aapl "; Page.quantity := ""; Page.price := "5";
       Page.type := "BUY" |} ([] : list (TradeRow Z)) = (Page.Failed, []).
Proof. reflexivity. Qed.

Lemma submitTrade_stored :
  submitTrade examplePrint exampleNumeric (Some 1)
    {| Page.symbol := " aapl "; Page.quantity := "10"; Page.price := "5";
       Page.type := "BUY" |} ([] : list (TradeRow Z))
  = (Page.Cleared, [{| id := 1; record := trade "AAPL" "BUY" 10 5 |}]).
Proof. reflexivity. Qed.
